(** * BLS CES proxy series: a shallow embedding of the wrangling pipeline

    The development embeds the pure core of
      - [bls_ces/load_CES_pandas.py]  (module [LoadCES]) and
      - [bls_ces/prep_CES_pandas.py]  (module [PrepCES])
    and states the properties of the dictionary join, the classification
    matcher, the monthly filter, the date derivation and the weighted
    aggregator.

    Modelling conventions.
      - A pandas column of dtype "string" is a list of [cell]s, [None]
        standing for a missing value (NA).
      - A float64 column is a list of [float64]; arithmetic on finite values
        is exact rational arithmetic, and the special values NaN and the two
        infinities follow IEEE 754.  Rounding, overflow and the sign of zero
        are not represented.
      - A Python exception is a value of type [exn] returned through the
        [result] monad.
      - A character is a code point below 256. *)

From Stdlib Require Import List String Ascii Bool Arith ZArith QArith Lia Lqa.
From Stdlib Require Import Sorting.Sorted Sorting.Permutation.
From Stdlib Require Import DecimalString.
Import ListNotations.

Local Open Scope string_scope.
Local Open Scope Z_scope.

Set Implicit Arguments.

(** ** Exceptions and the error monad *)

Inductive exn : Type :=
| KeyError (candidates : list string) (columns : list string)
    (* raised by find_col: the candidates tried, the columns seen *)
| NotInIndex (missing : list string)
    (* the KeyError of selecting columns a table does not have *)
| ValueError (msg : string)
| TypeError (msg : string)
| AttributeError (msg : string).

Inductive result (A : Type) : Type :=
| OK (a : A)
| Raise (e : exn).

Arguments OK {A} a.
Arguments Raise {A} e.

Definition bind {A B : Type} (m : result A) (k : A -> result B) : result B :=
  match m with
  | OK a => k a
  | Raise e => Raise e
  end.

Notation "x <- m ;; k" := (bind m (fun x => k))
  (at level 61, m at next level, right associativity).

(** Running a fallible function over a column: the first failure aborts. *)
Fixpoint mapM {A B : Type} (f : A -> result B) (l : list A) : result (list B) :=
  match l with
  | [] => OK []
  | a :: l' => b <- f a ;; bs <- mapM f l' ;; OK (b :: bs)
  end.

(** ** Python strings *)

(** A missing value of a "string" column is [None]. *)
Definition cell : Type := option string.

Definition cell_eqb (a b : cell) : bool :=
  match a, b with
  | Some x, Some y => String.eqb x y
  | None, None => true
  | _, _ => false
  end.

(** [str.isspace] on the code points below 256. *)
Definition isspace (c : ascii) : bool :=
  let n := nat_of_ascii c in
  ((9 <=? n) && (n <=? 13) || (28 <=? n) && (n <=? 32)
   || (n =? 133) || (n =? 160))%nat.

Fixpoint lstrip (s : string) : string :=
  match s with
  | String c s' => if isspace c then lstrip s' else s
  | EmptyString => EmptyString
  end.

(** [rstrip] drops the trailing run of white space. *)
Fixpoint rstrip (s : string) : string :=
  match s with
  | EmptyString => EmptyString
  | String c s' =>
      match rstrip s' with
      | EmptyString => if isspace c then EmptyString else String c EmptyString
      | r => String c r
      end
  end.

(** [str.strip()] *)
Definition strip (s : string) : string := rstrip (lstrip s).

(** [x.startswith(p)] *)
Fixpoint startswith (x p : string) : bool :=
  match p, x with
  | EmptyString, _ => true
  | String a p', String b x' => Ascii.eqb a b && startswith x' p'
  | String _ _, EmptyString => false
  end.

(** [str.lower()] on the code points below 256. *)
Definition lower_char (c : ascii) : ascii :=
  let n := nat_of_ascii c in
  if ((65 <=? n) && (n <=? 90)
      || (192 <=? n) && (n <=? 222) && negb (n =? 215))%nat
  then ascii_of_nat (n + 32) else c.

Fixpoint lower (s : string) : string :=
  match s with
  | EmptyString => EmptyString
  | String c s' => String (lower_char c) (lower s')
  end.

(** [s.replace(c, empty)] for a one-character pattern [c]. *)
Fixpoint remove_char (c : ascii) (s : string) : string :=
  match s with
  | EmptyString => EmptyString
  | String a s' => if Ascii.eqb a c then remove_char c s' else String a (remove_char c s')
  end.

Definition is_digit (c : ascii) : bool :=
  let n := nat_of_ascii c in ((48 <=? n) && (n <=? 57))%nat.

Definition digit_val (c : ascii) : Z := Z.of_nat (nat_of_ascii c) - 48.

(** The digits of a Python integer literal: decimal digits, single
    underscores allowed between two digits. [prev_digit] tells whether the
    character before was a digit. *)
Fixpoint int_digits (s : string) (prev_digit : bool) (acc : Z) : option Z :=
  match s with
  | EmptyString => if prev_digit then Some acc else None
  | String c s' =>
      if is_digit c then int_digits s' true (10 * acc + digit_val c)
      else if Ascii.eqb c "_" then
             if prev_digit then
               match s' with
               | String d _ => if is_digit d then int_digits s' false acc else None
               | EmptyString => None
               end
             else None
           else None
  end.

(** [int(s)]: surrounding white space, an optional sign, then digits. [None]
    is Python's ValueError. *)
Definition py_int (s : string) : option Z :=
  match strip s with
  | String "-" r => option_map Z.opp (int_digits r false 0)
  | String "+" r => int_digits r false 0
  | r => int_digits r false 0
  end.

(** [str(n)] for an integer. *)
Definition py_str (n : Z) : string := NilZero.string_of_int (Z.to_int n).

(** [s.zfill(2)]: only a one-character string is shorter than the width; a
    lone sign keeps its place in front of the padding. *)
Definition zfill2 (s : string) : string :=
  match s with
  | EmptyString => "00"
  | String c EmptyString =>
      if Ascii.eqb c "-" || Ascii.eqb c "+" then String c "0" else String "0" s
  | _ => s
  end.

(** ** float64 values *)

Inductive float64 : Type :=
| Fin (q : Q)
| PInf
| NInf
| NaN.

Definition isna (x : float64) : bool :=
  match x with NaN => true | _ => false end.

Definition notna (x : float64) : bool := negb (isna x).

(** Sign of a value other than NaN, as a comparison with zero. *)
Definition fsign (x : float64) : comparison :=
  match x with
  | Fin q => Qcompare q 0
  | PInf => Gt
  | NInf => Lt
  | NaN => Eq
  end.

Definition inf_of_sign (c : comparison) : float64 :=
  match c with Gt => PInf | Lt => NInf | Eq => NaN end.

Definition sign_mul (a b : comparison) : comparison :=
  match a, b with
  | Eq, _ | _, Eq => Eq
  | Gt, c => c
  | Lt, c => CompOpp c
  end.

Definition fadd (x y : float64) : float64 :=
  match x, y with
  | NaN, _ | _, NaN => NaN
  | Fin a, Fin b => Fin (a + b)
  | PInf, NInf | NInf, PInf => NaN
  | PInf, _ | _, PInf => PInf
  | NInf, _ | _, NInf => NInf
  end.

Definition fmul (x y : float64) : float64 :=
  match x, y with
  | NaN, _ | _, NaN => NaN
  | Fin a, Fin b => Fin (a * b)
  | _, _ => inf_of_sign (sign_mul (fsign x) (fsign y))
  end.

(** Division of numpy scalars: a zero divisor gives NaN or an infinity (with
    a warning), never an exception. *)
Definition fdiv (x y : float64) : float64 :=
  match x, y with
  | NaN, _ | _, NaN => NaN
  | Fin a, Fin b =>
      match Qcompare b 0 with
      | Eq => inf_of_sign (Qcompare a 0)
      | _ => Fin (a / b)
      end
  | Fin _, _ => Fin 0
  | _, Fin b =>
      match Qcompare b 0 with
      | Lt => inf_of_sign (CompOpp (fsign x))
      | _ => x
      end
  | _, _ => NaN
  end.

(** Equality of float64 values up to the representation of the rational. *)
Definition feq (x y : float64) : Prop :=
  match x, y with
  | Fin a, Fin b => a == b
  | PInf, PInf | NInf, NInf | NaN, NaN => True
  | _, _ => False
  end.

(** [Series.sum()] with its defaults [skipna=True, min_count=0]: missing
    values are left out and the empty sum is 0. *)
Definition nansum (xs : list float64) : float64 :=
  fold_left fadd (filter notna xs) (Fin 0).

(** ** Table operations *)

Section Frames.

Variables L R O K : Type.

(** [left.merge(right, on=key, how="left")]: every left row, in order, with
    each right row of equal key, or once with missing right columns when no
    right row has the key. Missing keys match each other. *)
Definition merge_left (keq : K -> K -> bool) (kl : L -> K) (kr : R -> K)
    (join : L -> option R -> O) (ls : list L) (rs : list R) : list O :=
  flat_map (fun l =>
              match filter (fun r => keq (kl l) (kr r)) rs with
              | [] => [join l None]
              | ms => map (fun r => join l (Some r)) ms
              end) ls.

End Frames.

Section Sorting.

Variable A : Type.
Variable leb : A -> A -> bool.

Fixpoint insert_sorted (x : A) (l : list A) : list A :=
  match l with
  | [] => [x]
  | y :: l' => if leb y x then y :: insert_sorted x l' else x :: l
  end.

(** [sort_values]: a stable sort by [leb]. *)
Definition sort_values (l : list A) : list A :=
  fold_right insert_sorted [] (rev l).

End Sorting.

(** ** Calendar dates *)

Record Timestamp : Type := mkTimestamp { ts_year : Z; ts_month : Z; ts_day : Z }.

Definition triple_leb (a b : Z * Z * Z) : bool :=
  let '(y1, m1, d1) := a in
  let '(y2, m2, d2) := b in
  (y1 <? y2) || (y1 =? y2) && ((m1 <? m2) || (m1 =? m2) && (d1 <=? d2)).

Definition is_leap (y : Z) : bool :=
  (y mod 4 =? 0) && (negb (y mod 100 =? 0) || (y mod 400 =? 0)).

Definition days_in_month (y m : Z) : Z :=
  if m =? 2 then (if is_leap y then 29 else 28)
  else if (m =? 4) || (m =? 6) || (m =? 9) || (m =? 11) then 30 else 31.

(** The range of a nanosecond Timestamp at midnight:
    1677-09-22 to 2262-04-11. *)
Definition in_bounds (y m d : Z) : bool :=
  triple_leb (1677, 9, 22) (y, m, d) && triple_leb (y, m, d) (2262, 4, 11).

Definition in_range (c lo hi : ascii) : bool :=
  (nat_of_ascii lo <=? nat_of_ascii c)%nat && (nat_of_ascii c <=? nat_of_ascii hi)%nat.

(** The month field of the format, [1[0-2]|0[1-9]|[1-9]], followed by the
    separator; returns the month and what follows the separator. *)
Definition parse_month (s : string) : option (Z * string) :=
  match s with
  | String a (String b (String "-" r)) =>
      if Ascii.eqb a "1" && in_range b "0" "2" || Ascii.eqb a "0" && in_range b "1" "9"
      then Some (10 * digit_val a + digit_val b, r) else None
  | String a (String "-" r) =>
      if in_range a "1" "9" then Some (digit_val a, r) else None
  | _ => None
  end.

(** The day field, [3[0-1]|[1-2]\d|0[1-9]|[1-9]| [1-9]], up to the end. *)
Definition parse_day (s : string) : option Z :=
  match s with
  | String a (String b EmptyString) =>
      if Ascii.eqb a "3" && in_range b "0" "1"
         || in_range a "1" "2" && is_digit b
         || Ascii.eqb a "0" && in_range b "1" "9"
      then Some (10 * digit_val a + digit_val b)
      else if Ascii.eqb a " " && in_range b "1" "9" then Some (digit_val b)
      else None
  | String a EmptyString => if in_range a "1" "9" then Some (digit_val a) else None
  | _ => None
  end.

(** Reading a string in the format "%Y-%m-%d": four digits of year, month,
    day, a date that exists and lies in the Timestamp range. *)
Definition strptime_ymd (s : string) : option Timestamp :=
  match s with
  | String y1 (String y2 (String y3 (String y4 (String "-" r)))) =>
      if is_digit y1 && is_digit y2 && is_digit y3 && is_digit y4 then
        let y := 1000 * digit_val y1 + 100 * digit_val y2
                 + 10 * digit_val y3 + digit_val y4 in
        match parse_month r with
        | Some (m, r') =>
            match parse_day r' with
            | Some d =>
                if (d <=? days_in_month y m) && in_bounds y m d
                then Some (mkTimestamp y m d) else None
            | None => None
            end
        | None => None
        end
      else None
  | _ => None
  end.

(** The period filter [str.match(r"^M(0[1-9]|1[0-2])$")] of both scripts.
    [re.match] anchors at the start; [$] holds at the end of the string and
    also just before a newline that ends the string. A missing value gives a
    missing mask entry, which selects nothing. *)
Definition match_monthly (s : string) : bool :=
  match s with
  | String "M" (String a (String b r)) =>
      (Ascii.eqb a "0" && in_range b "1" "9" || Ascii.eqb a "1" && in_range b "0" "2")
      && (String.eqb r EmptyString || String.eqb r (String "010" EmptyString))
  | _ => false
  end.

Definition period_is_monthly (p : cell) : bool :=
  match p with
  | Some s => match_monthly s
  | None => false
  end.

(** The twelve monthly period codes. *)
Definition monthly_codes : list string :=
  ["M01"; "M02"; "M03"; "M04"; "M05"; "M06";
   "M07"; "M08"; "M09"; "M10"; "M11"; "M12"].

(** Order of a sort key column, missing values last. *)
Definition cmp_na_last {A : Type} (cmp : A -> A -> comparison) (a b : option A) : comparison :=
  match a, b with
  | Some x, Some y => cmp x y
  | Some _, None => Lt
  | None, Some _ => Gt
  | None, None => Eq
  end.

Definition ts_compare (a b : Timestamp) : comparison :=
  match ts_year a ?= ts_year b with
  | Eq => match ts_month a ?= ts_month b with
          | Eq => ts_day a ?= ts_day b
          | c => c
          end
  | c => c
  end.

Definition lex (c : comparison) (rest : comparison) : comparison :=
  match c with Eq => rest | _ => c end.

Definition le_of (c : comparison) : bool :=
  match c with Gt => false | _ => true end.

(** ** Shared by both scripts *)

(** A row of the observation file [ce.data.0.ALLCESSeries], read as strings. *)
Record ObsRow : Type := mkObsRow {
  o_series_id : cell; o_year : cell; o_period : cell; o_value : cell
}.

(** One entry of [period.str.replace("M", empty, regex=False).astype(int)]. *)
Definition month_of (p : cell) : result Z :=
  match p with
  | Some s =>
      match py_int (remove_char "M" s) with
      | Some m => OK m
      | None => Raise (ValueError "invalid literal for int() with base 10")
      end
  | None =>
      (* int(pd.NA) *)
      Raise (TypeError "int() argument must be a string, a bytes-like object or a real number, not 'NAType'")
  end.

Section GroupBy.

Variables K A : Type.
Variable cmp : K -> K -> comparison.
Variable key : A -> K.

Definition key_eqb (a b : K) : bool :=
  match cmp a b with Eq => true | _ => false end.

Fixpoint insert_key (k : K) (ks : list K) : list K :=
  match ks with
  | [] => [k]
  | k' :: ks' =>
      match cmp k k' with
      | Lt => k :: ks
      | Eq => ks
      | Gt => k' :: insert_key k ks'
      end
  end.

(** The distinct keys of a table, ascending. *)
Definition group_keys (l : list A) : list K :=
  fold_right (fun a ks => insert_key (key a) ks) [] l.

(** [df.groupby(key)]: one group per distinct key, keys ascending, each
    group holding its rows in table order. *)
Definition groupby (l : list A) : list (K * list A) :=
  map (fun k => (k, filter (fun a => key_eqb (key a) k) l)) (group_keys l).

End GroupBy.

(** * load_CES_pandas.py *)

Module LoadCES.

(** A table read with [dtype="string"]: a header and rows of cells. A name
    denotes the first column of that name; headers are taken to carry no
    name twice once normalised, as in the BLS files. *)
Record DataFrame : Type := mkDataFrame {
  columns : list string;
  rows : list (list cell)
}.

Definition mem (c : string) (cols : list string) : bool :=
  existsb (String.eqb c) cols.

Fixpoint col_index (c : string) (cols : list string) : option nat :=
  match cols with
  | [] => None
  | x :: cols' => if String.eqb c x then Some O
                  else option_map S (col_index c cols')
  end.

(** The cell of [row] under column [c]. *)
Definition at_col (df : DataFrame) (c : string) (row : list cell) : cell :=
  match col_index c (columns df) with
  | Some i => nth i row None
  | None => None
  end.

(** [df[c]] as a column. *)
Definition column (df : DataFrame) (c : string) : list cell :=
  map (at_col df c) (rows df).

(** [df.columns = [c.strip().lower() for c in df.columns]] *)
Definition normalize (df : DataFrame) : DataFrame :=
  mkDataFrame (map (fun c => lower (strip c)) (columns df)) (rows df).

(** [df[[c1, ..., cn]]]: KeyError naming the requested columns the table
    does not have. *)
Definition getitem (df : DataFrame) (cs : list string) : result DataFrame :=
  match filter (fun c => negb (mem c (columns df))) cs with
  | [] => OK (mkDataFrame cs (map (fun row => map (fun c => at_col df c row) cs) (rows df)))
  | missing => Raise (NotInIndex missing)
  end.

Fixpoint lookup (c : string) (m : list (string * string)) : option string :=
  match m with
  | [] => None
  | (k, v) :: m' => if String.eqb c k then Some v else lookup c m'
  end.

(** A dict literal: a later binding of a key replaces an earlier one. *)
Definition dict (m : list (string * string)) : list (string * string) := rev m.

(** [df.rename(columns=m)] *)
Definition rename (m : list (string * string)) (df : DataFrame) : DataFrame :=
  mkDataFrame
    (map (fun c => match lookup c (dict m) with Some c' => c' | None => c end) (columns df))
    (rows df).

(** The loop of [find_col]: the first candidate that is a column. *)
Fixpoint first_present (cols : list string) (candidates : list string) : option string :=
  match candidates with
  | [] => None
  | c :: rest => if mem c cols then Some c else first_present cols rest
  end.

Definition find_col (df : DataFrame) (candidates : list string) : result string :=
  match first_present (columns df) candidates with
  | Some c => OK c
  | None => Raise (KeyError candidates (columns df))
  end.

Record SeriesRow : Type := mkSeriesRow {
  sr_series_id : cell; sr_industry_code : cell;
  sr_datatype_code : cell; sr_seasonal : cell
}.

Record IndustryRow : Type := mkIndustryRow {
  ir_industry_code : cell; ir_industry_name : cell
}.

Record DatatypeRow : Type := mkDatatypeRow {
  dr_datatype_code : cell; dr_datatype_text : cell
}.

(** A row of the series dictionary. *)
Record DictRow : Type := mkDictRow {
  series_id : cell; industry_code : cell; datatype_code : cell;
  seasonal : cell; industry_name : cell; datatype_text : cell
}.

Definition series_rows (df : DataFrame) : list SeriesRow :=
  map (fun r => mkSeriesRow (at_col df "series_id" r) (at_col df "industry_code" r)
                            (at_col df "datatype_code" r) (at_col df "seasonal" r))
      (rows df).

Definition industry_rows (df : DataFrame) : list IndustryRow :=
  map (fun r => mkIndustryRow (at_col df "industry_code" r) (at_col df "industry_name" r))
      (rows df).

Definition datatype_rows (df : DataFrame) : list DatatypeRow :=
  map (fun r => mkDatatypeRow (at_col df "datatype_code" r) (at_col df "datatype_text" r))
      (rows df).

(** [s.merge(i, on="industry_code", how="left")] *)
Definition merge_industry (s : list SeriesRow) (i : list IndustryRow)
  : list (SeriesRow * cell) :=
  merge_left cell_eqb sr_industry_code ir_industry_code
    (fun l r => (l, match r with Some x => ir_industry_name x | None => None end))
    s i.

(** [.merge(d, on="datatype_code", how="left")] *)
Definition merge_datatype (si : list (SeriesRow * cell)) (d : list DatatypeRow)
  : list DictRow :=
  merge_left cell_eqb (fun l => sr_datatype_code (fst l)) dr_datatype_code
    (fun l r =>
       mkDictRow (sr_series_id (fst l)) (sr_industry_code (fst l))
                 (sr_datatype_code (fst l)) (sr_seasonal (fst l)) (snd l)
                 (match r with Some x => dr_datatype_text x | None => None end))
    si d.

Record Tables : Type := mkTables {
  data : list ObsRow;
  series : DataFrame;
  industry : DataFrame;
  datatype : DataFrame
}.

Definition build_dictionary (tables : Tables) : result (list DictRow) :=
  let s := normalize (series tables) in
  let i := normalize (industry tables) in
  let d := normalize (datatype tables) in
  series_id_col <- find_col s ["series_id"] ;;
  industry_col <- find_col s ["industry_code"; "industry"; "industry_cd"] ;;
  datatype_col <- find_col s ["data_type_code"; "data_type_code"; "datatype"; "datatype_cd"] ;;
  industry_code_col <- find_col i ["industry_code"; "industry"; "industry_cd"] ;;
  datatype_code_col <- find_col d ["data_type_code"; "data_type"; "data_type_cd"] ;;
  industry_name_col <- find_col i ["industry_name"; "industry_text"; "industry_title"] ;;
  datatype_text_col <- find_col d ["data_type_text"; "data_type_name"; "data_type_title"] ;;
  s1 <- getitem s [series_id_col; industry_col; datatype_col; "seasonal"] ;;
  let s2 := rename [(series_id_col, "series_id"); (industry_col, "industry_code");
                    (datatype_col, "datatype_code")] s1 in
  i1 <- getitem i [industry_code_col; industry_name_col] ;;
  let i2 := rename [(industry_code_col, "industry_code");
                    (industry_name_col, "industry_name")] i1 in
  d1 <- getitem d [datatype_code_col; datatype_text_col] ;;
  let d2 := rename [(datatype_code_col, "datatype_code");
                    (datatype_text_col, "datatype_text")] d1 in
  OK (merge_datatype (merge_industry (series_rows s2) (industry_rows i2))
                     (datatype_rows d2)).

(** [astype(str)] of a string column: a missing value prints as <NA>. *)
Definition astype_str (c : cell) : string :=
  match c with Some s => s | None => "<NA>" end.

(** [pd.to_datetime(..., format="%Y-%m-%d", errors="coerce")] on one
    entry: what does not parse becomes NaT. *)
Definition to_datetime_coerce (s : string) : option Timestamp := strptime_ymd s.

Definition make_monthly_date (year period : list cell)
  : result (list (option Timestamp)) :=
  month <- mapM month_of period ;;
  OK (map (fun ym => to_datetime_coerce
                       (astype_str (fst ym) ++ "-" ++ zfill2 (py_str (snd ym)) ++ "-01"))
          (combine year month)).

(** An observation joined with its dictionary row. *)
Record Joined : Type := mkJoined {
  j_year : cell; j_period : cell; j_series_id : cell; j_seasonal : cell;
  j_industry_code : cell; j_industry_name : cell;
  j_datatype_code : cell; j_datatype_text : cell;
  j_value : float64
}.

(** A row of an extracted proxy dataset. *)
Record ProxyRow : Type := mkProxyRow {
  date : option Timestamp;
  obs : Joined
}.

Definition sort_key_le (a b : ProxyRow) : bool :=
  le_of (lex (cmp_na_last String.compare (j_datatype_text (obs a)) (j_datatype_text (obs b)))
        (lex (cmp_na_last String.compare (j_industry_code (obs a)) (j_industry_code (obs b)))
             (cmp_na_last ts_compare (date a) (date b)))).

Section ProxyDataset.

(** [pd.to_numeric(s, errors="coerce")] on one non-missing entry. *)
Variable to_numeric : string -> float64.

Definition numeric_value (c : cell) : float64 :=
  match c with Some s => to_numeric s | None => NaN end.

(** [data.merge(series_dict, on="series_id", how="left")], the value
    column already numeric. *)
Definition join_dict (data : list ObsRow) (series_dict : list DictRow) : list Joined :=
  merge_left cell_eqb o_series_id series_id
    (fun o r =>
       let f := fun (g : DictRow -> cell) =>
                  match r with Some x => g x | None => None end in
       mkJoined (o_year o) (o_period o) (o_series_id o) (f seasonal)
                (f industry_code) (f industry_name)
                (f datatype_code) (f datatype_text)
                (numeric_value (o_value o)))
    data series_dict.

Definition isin (whitelist : list string) (c : cell) : bool :=
  match c with
  | Some s => existsb (String.eqb s) whitelist
  | None => false
  end.

Definition extract_proxy_dataset (tables : Tables) (series_dict : list DictRow)
    (industry_code_predicate : cell -> bool) (datatype_whitelist : list string)
    (seasonal_filter : option string) : result (list ProxyRow) :=
  let data := filter (fun o => period_is_monthly (o_period o)) (data tables) in
  let df := join_dict data series_dict in
  let df := filter (fun r => industry_code_predicate (j_industry_code r)) df in
  let df := filter (fun r => isin datatype_whitelist (j_datatype_text r)) df in
  let df := match seasonal_filter with
            | Some v => filter (fun r => cell_eqb (j_seasonal r) (Some v)) df
            | None => df
            end in
  dates <- make_monthly_date (map j_year df) (map j_period df) ;;
  OK (sort_values sort_key_le
        (map (fun dr => mkProxyRow (fst dr) (snd dr)) (combine dates df))).

(** [code_matches(codes)]: one set serves as exact codes and as prefixes.
    This is the predicate entry by entry, as pandas evaluates it on a column
    with at least one row. On a column without rows [s.apply] keeps the
    string dtype, the mask is not boolean and [df[mask]] selects columns
    instead of rows; that case is outside the embedding. *)
Definition code_matches (codes : list string) (x : cell) : bool :=
  let s := match x with Some v => v | None => EmptyString end in
  existsb (String.eqb s) codes || existsb (fun code => startswith s code) codes.

Definition mechanic_codes : list string := ["8111"].
Definition graphic_codes : list string := ["54143"; "541430"].
Definition software_codes : list string := ["511210"; "5415"].
Definition measures : list string :=
  ["All employees"; "Average hourly earnings"; "Average weekly hours"].

(** Steps 2 and 5 of [main]: the dictionary, then the three proxies. *)
Definition main (tables : Tables)
  : result (list ProxyRow * list ProxyRow * list ProxyRow) :=
  series_dict <- build_dictionary tables ;;
  mechanic_df <- extract_proxy_dataset tables series_dict
                   (code_matches mechanic_codes) measures None ;;
  graphic_df <- extract_proxy_dataset tables series_dict
                  (code_matches graphic_codes) measures None ;;
  software_df <- extract_proxy_dataset tables series_dict
                   (code_matches software_codes) measures None ;;
  OK (mechanic_df, graphic_df, software_df).

End ProxyDataset.

(** *** Vocabulary for the properties of this script *)

(** The seven lookups of [build_dictionary], in program order. *)
Definition lookups (tables : Tables) : list (DataFrame * list string) :=
  let s := normalize (series tables) in
  let i := normalize (industry tables) in
  let d := normalize (datatype tables) in
  [ (s, ["series_id"]);
    (s, ["industry_code"; "industry"; "industry_cd"]);
    (s, ["data_type_code"; "data_type_code"; "datatype"; "datatype_cd"]);
    (i, ["industry_code"; "industry"; "industry_cd"]);
    (d, ["data_type_code"; "data_type"; "data_type_cd"]);
    (i, ["industry_name"; "industry_text"; "industry_title"]);
    (d, ["data_type_text"; "data_type_name"; "data_type_title"]) ].

Definition lookup_fails (l : DataFrame * list string) : Prop :=
  exists e, find_col (fst l) (snd l) = Raise e.

(** A reference table is keyed uniquely by the column a candidate list
    resolves to when that column holds no value twice. *)
Definition keyed_uniquely (df : DataFrame) (candidates : list string) : Prop :=
  forall c, find_col df candidates = OK c -> NoDup (column df c).

Definition lookup_succeeds (l : DataFrame * list string) : Prop :=
  exists c, find_col (fst l) (snd l) = OK c.

(** What the dictionary of [build_dictionary] looks like against the
    normalised tables [s], [i], [d] and the resolved column names. *)
Record dictionary_of (s i d : DataFrame) (dict : list DictRow) : Prop := {
  dict_length : List.length dict = List.length (rows s);
  dict_series_id :
    exists c, find_col s ["series_id"] = OK c /\ map series_id dict = column s c;
  dict_industry_code :
    exists c, find_col s ["industry_code"; "industry"; "industry_cd"] = OK c /\
              map industry_code dict = column s c;
  dict_datatype_code :
    exists c, find_col s ["data_type_code"; "data_type_code"; "datatype"; "datatype_cd"] = OK c /\
              map datatype_code dict = column s c;
  dict_seasonal : map seasonal dict = column s "seasonal";
  dict_name_missing :
    exists c, find_col i ["industry_code"; "industry"; "industry_cd"] = OK c /\
              forall r, In r dict -> ~ In (industry_code r) (column i c) ->
                        industry_name r = None;
  dict_text_missing :
    exists c, find_col d ["data_type_code"; "data_type"; "data_type_cd"] = OK c /\
              forall r, In r dict -> ~ In (datatype_code r) (column d c) ->
                        datatype_text r = None
}.

End LoadCES.

(** * prep_CES_pandas.py *)

Module PrepCES.

Definition EMP_TEXT : string := "ALL EMPLOYEES, THOUSANDS".
Definition AHE_TEXT : string := "AVERAGE HOURLY EARNINGS OF ALL EMPLOYEES".

(** [pd.to_datetime(s)] on one entry of the form year-month-day; what does
    not parse raises. *)
Definition to_datetime (s : string) : result Timestamp :=
  match strptime_ymd s with
  | Some t => OK t
  | None => Raise (ValueError "time data does not match format")
  end.

(** [make_date]; the year column is integer by then. Without a format
    pandas reads year-month-day strings with a year of four digits as such;
    years of another width are outside this embedding. *)
Definition make_date (year : list Z) (period : list cell) : result (list Timestamp) :=
  month <- mapM month_of period ;;
  mapM (fun ym => to_datetime (py_str (fst ym) ++ "-" ++ zfill2 (py_str (snd ym)) ++ "-01"))
       (combine year month).

(** One entry of the mask of [naics_mask]. *)
Definition naics_mask1 (exact prefixes : option (list string)) (v : cell) : bool :=
  let s := option_map strip v in
  let m := false in
  let m := match exact with
           | Some ((_ :: _) as ex) =>
               let ex := map strip ex in
               m || match s with
                    | Some x => existsb (String.eqb x) ex
                    | None => false
                    end
           | _ => m
           end in
  let m := match prefixes with
           | Some ((_ :: _) as ps) =>
               let ps := map strip ps in
               m || match s with
                    | Some x => existsb (startswith x) ps
                    | None => false
                    end
           | _ => m
           end in
  m.

Definition naics_mask (naics : list cell) (exact prefixes : option (list string))
  : list bool :=
  map (naics_mask1 exact prefixes) naics.

(** The columns of the career table that [collapse_career] reads. *)
Record Row : Type := mkRow {
  date : Timestamp;
  industry_code : cell;
  datatype_text : cell;
  value : float64
}.

(** An earnings row with the employment weight merged in. *)
Record EarnRow : Type := mkEarnRow {
  e_row : Row;
  emp_weight_thousands : float64
}.

Record OutRow : Type := mkOutRow {
  o_date : Timestamp;
  employment_thousands : float64;
  avg_hourly_earnings : float64
}.

(** [df["datatype_text"] == t] *)
Definition text_is (t : string) (r : Row) : bool :=
  cell_eqb (datatype_text r) (Some t).

Definition ts_eqb (a b : Timestamp) : bool := key_eqb ts_compare a b.

(** [emp.groupby("date", as_index=False)["value"].sum()] *)
Definition employment_by_date (emp : list Row) : list (Timestamp * float64) :=
  map (fun g => (fst g, nansum (map value (snd g)))) (groupby ts_compare date emp).

(** [earn.merge(emp[["date", "industry_code", "value"]].rename(...),
    on=["date", "industry_code"], how="left")] *)
Definition merge_weights (earn emp : list Row) : list EarnRow :=
  merge_left (fun a b => ts_eqb (fst a) (fst b) && cell_eqb (snd a) (snd b))
    (fun e => (date e, industry_code e)) (fun m => (date m, industry_code m))
    (fun e m => mkEarnRow e (match m with Some x => value x | None => NaN end))
    earn emp.

(** The function applied to each group:
    [(g["value"] * g["emp_weight_thousands"]).sum() / g["emp_weight_thousands"].sum()] *)
Definition weighted_mean (g : list EarnRow) : float64 :=
  fdiv (nansum (map (fun r => fmul (value (e_row r)) (emp_weight_thousands r)) g))
       (nansum (map emp_weight_thousands g)).

(** [earn.groupby("date").apply(...).to_frame(...).reset_index()]. The
    function returns a scalar per group, so [apply] gives a Series indexed
    by date. On a table without rows there is no group to call the function
    on, and [apply] hands back an empty DataFrame, which has no [to_frame]. *)
Definition earnings_by_date (earn : list EarnRow) : result (list (Timestamp * float64)) :=
  match earn with
  | [] => Raise (AttributeError "'DataFrame' object has no attribute 'to_frame'")
  | _ => OK (map (fun g => (fst g, weighted_mean (snd g)))
                 (groupby ts_compare (fun r => date (e_row r)) earn))
  end.

Definition date_le (a b : OutRow) : bool := le_of (ts_compare (o_date a) (o_date b)).

Definition collapse_career (df : list Row) : result (list OutRow) :=
  let emp := filter (text_is EMP_TEXT) df in
  let earn := filter (text_is AHE_TEXT) df in
  let emp_m := employment_by_date emp in
  let earn := merge_weights earn emp in
  earn_m <- earnings_by_date earn ;;
  OK (sort_values date_le
        (merge_left ts_eqb fst fst
           (fun l r => mkOutRow (fst l) (snd l)
                                (match r with Some x => snd x | None => NaN end))
           emp_m earn_m)).

(** *** The parts of [main] the properties below are about *)

(** Lines 117-125 on the observation table: key columns are stripped. *)
Definition strip_keys (o : ObsRow) : ObsRow :=
  mkObsRow (option_map strip (o_series_id o)) (o_year o)
           (option_map strip (o_period o)) (o_value o).

(** Line 155 after the stripping: monthly rows only. *)
Definition monthly_only (data : list ObsRow) : list ObsRow :=
  filter (fun o => period_is_monthly (o_period o)) (map strip_keys data).

Record SeriesRow : Type := mkSeriesRow {
  sr_series_id : cell; sr_industry_code : cell;
  sr_datatype_code : cell; sr_seasonal : cell
}.

Record IndustryRow : Type := mkIndustryRow {
  ir_industry_code : cell; ir_naics_code : cell; ir_industry_name : cell
}.

Record DatatypeRow : Type := mkDatatypeRow {
  dr_datatype_code : cell; dr_datatype_text : cell
}.

Record DictRow : Type := mkDictRow {
  d_series : SeriesRow;
  d_naics_code : cell;
  d_industry_name : cell;
  d_datatype_text : cell
}.

(** Lines 132-136: the dictionary of [main]. *)
Definition series_dict (series : list SeriesRow) (industry : list IndustryRow)
    (datatype : list DatatypeRow) : list DictRow :=
  merge_left cell_eqb (fun l => sr_datatype_code (fst l)) dr_datatype_code
    (fun l r => mkDictRow (fst l) (fst (snd l)) (snd (snd l))
                  (match r with Some x => dr_datatype_text x | None => None end))
    (merge_left cell_eqb sr_industry_code ir_industry_code
       (fun l r => (l, match r with
                       | Some x => (ir_naics_code x, ir_industry_name x)
                       | None => (None, None)
                       end))
       series industry)
    datatype.

(** *** Vocabulary for the properties of this script *)

Definition emp_rows (df : list Row) : list Row := filter (text_is EMP_TEXT) df.
Definition earn_rows (df : list Row) : list Row := filter (text_is AHE_TEXT) df.

(** The earnings rows with their weights, as merged by [collapse_career]. *)
Definition merged (df : list Row) : list EarnRow :=
  merge_weights (earn_rows df) (emp_rows df).

(** The merged earnings rows of one date. *)
Definition merged_on (df : list Row) (d : Timestamp) : list EarnRow :=
  filter (fun r => ts_eqb (date (e_row r)) d) (merged df).

(** The employment values of one date. *)
Definition employment_on (df : list Row) (d : Timestamp) : list float64 :=
  map value (filter (fun r => ts_eqb (date r) d) (emp_rows df)).

Definition avg_on (df : list Row) (d : Timestamp) : float64 :=
  match merged_on df d with
  | [] => NaN
  | g => weighted_mean g
  end.

(** The dates of the employment rows, each once, ascending. *)
Definition emp_dates (df : list Row) : list Timestamp :=
  group_keys ts_compare date (emp_rows df).

(** The table has at least one earnings row. *)
Definition has_earnings (df : list Row) : Prop :=
  exists r, In r df /\ datatype_text r = Some AHE_TEXT.

(** The codes of an optional list of a proxy definition. *)
Definition codes_of (o : option (list string)) : list string :=
  match o with Some l => l | None => [] end.

(** A merged earnings row counts in the specification's weighted average
    when it has both an earnings value and a weight. *)
Definition qualifying (r : EarnRow) : bool :=
  notna (value (e_row r)) && notna (emp_weight_thousands r).

(** The weighted average as the specification words it: both sums range
    over the qualifying rows only. *)
Definition spec_weighted_average (g : list EarnRow) : float64 :=
  let q := filter qualifying g in
  fdiv (nansum (map (fun r => fmul (value (e_row r)) (emp_weight_thousands r)) q))
       (nansum (map emp_weight_thousands q)).

End PrepCES.

(** * Vocabulary for the properties *)

Definition key_lt {K : Type} (cmp : K -> K -> comparison) (a b : K) : Prop :=
  cmp a b = Lt.

Definition sorted_by {A : Type} (leb : A -> A -> bool) (l : list A) : Prop :=
  StronglySorted (fun a b => leb a b = true) l.

Definition qsum (l : list Q) : Q := fold_right Qplus 0%Q l.

(** The finite entries of a column. *)
Definition fin_vals (l : list float64) : list Q :=
  flat_map (fun x => match x with Fin q => [q] | _ => [] end) l.

Definition not_inf (x : float64) : Prop :=
  match x with PInf | NInf => False | _ => True end.

(** A missing value, or a finite one that satisfies [P]. *)
Definition na_or (P : Q -> Prop) (x : float64) : Prop :=
  match x with
  | NaN => True
  | Fin q => P q
  | _ => False
  end.

(** The period code of month [m]. *)
Definition month_code (m : Z) : string := "M" ++ zfill2 (py_str m).

(** The line feed character. *)
Definition LF : string := String "010" EmptyString.

Fixpoint last_char (s : string) : option ascii :=
  match s with
  | EmptyString => None
  | String c EmptyString => Some c
  | String _ s' => last_char s'
  end.

(** The integers [lo], [lo + 1], ..., [lo + n - 1]. *)
Definition Zrange (lo : Z) (n : nat) : list Z :=
  map (fun i => lo + Z.of_nat i) (seq 0 n).

(** [make_monthly_date] on one row gives the first day of month [m] of
    year [y]. *)
Definition first_of_month_load (y m : Z) : bool :=
  match LoadCES.make_monthly_date [Some (py_str y)] [Some (month_code m)] with
  | OK [Some t] => (ts_year t =? y) && (ts_month t =? m) && (ts_day t =? 1)
  | _ => false
  end.

Definition first_of_month_prep (y m : Z) : bool :=
  match PrepCES.make_date [y] [Some (month_code m)] with
  | OK [t] => (ts_year t =? y) && (ts_month t =? m) && (ts_day t =? 1)
  | _ => false
  end.

(** ** Concrete tables *)

Definition jan20 : Timestamp := mkTimestamp 2020 1 1.
Definition feb20 : Timestamp := mkTimestamp 2020 2 1.

Definition emp_row (d : Timestamp) (code : string) (v : float64) : PrepCES.Row :=
  PrepCES.mkRow d (Some code) (Some PrepCES.EMP_TEXT) v.

Definition earn_row (d : Timestamp) (code : string) (v : float64) : PrepCES.Row :=
  PrepCES.mkRow d (Some code) (Some PrepCES.AHE_TEXT) v.

(** One date, two industries, earnings (10, 20), weights (100, 300). *)
Definition two_industries : list PrepCES.Row :=
  [ emp_row jan20 "811100" (Fin 100); emp_row jan20 "811200" (Fin 300);
    earn_row jan20 "811100" (Fin 10); earn_row jan20 "811200" (Fin 20) ].

(** The same, the second industry reporting no earnings. *)
Definition null_earnings : list PrepCES.Row :=
  [ emp_row jan20 "811100" (Fin 100); emp_row jan20 "811200" (Fin 300);
    earn_row jan20 "811100" (Fin 10); earn_row jan20 "811200" NaN ].

(** Employment in January only, earnings in February only. *)
Definition earnings_only_date : list PrepCES.Row :=
  [ emp_row jan20 "811100" (Fin 100); earn_row feb20 "811100" (Fin 10) ].

(** A date whose only employment value is missing. *)
Definition null_employment : list PrepCES.Row :=
  [ emp_row jan20 "811100" NaN; earn_row jan20 "811100" (Fin 10) ].

(** Weights of opposite sign that cancel. *)
Definition cancelling_weights : list PrepCES.Row :=
  [ emp_row jan20 "811100" (Fin 5); emp_row jan20 "811200" (Fin (-5));
    earn_row jan20 "811100" (Fin 10); earn_row jan20 "811200" (Fin 20) ].

(** Tables whose single observation carries the period M01 followed by a
    line feed, as a quoted field of the observation file can. *)
Definition newline_period_tables : LoadCES.Tables :=
  LoadCES.mkTables
    [ mkObsRow (Some "CEU8081110001") (Some "2020") (Some ("M01" ++ LF)) (Some "850.1") ]
    (LoadCES.mkDataFrame ["series_id"; "industry_code"; "data_type_code"; "seasonal"]
       [ [Some "CEU8081110001"; Some "8111"; Some "01"; Some "U"] ])
    (LoadCES.mkDataFrame ["industry_code"; "industry_name"]
       [ [Some "8111"; Some "Automotive repair and maintenance"] ])
    (LoadCES.mkDataFrame ["data_type_code"; "data_type_text"]
       [ [Some "01"; Some "All employees"] ]).

(** Tables whose industry registry has none of the known names for the
    industry code. *)
Definition unresolvable_tables : LoadCES.Tables :=
  LoadCES.mkTables
    (LoadCES.data newline_period_tables)
    (LoadCES.series newline_period_tables)
    (LoadCES.mkDataFrame ["code"; "industry_name"]
       [ [Some "8111"; Some "Automotive repair and maintenance"] ])
    (LoadCES.datatype newline_period_tables).

(** A series whose industry code the industry registry does not list. *)
Definition orphan_series : list PrepCES.SeriesRow :=
  [ PrepCES.mkSeriesRow (Some "CEU8081110001") (Some "8111") (Some "01") (Some "U");
    PrepCES.mkSeriesRow (Some "CEU9999999903") (Some "9999") (Some "03") (Some "U") ].

Definition one_industry : list PrepCES.IndustryRow :=
  [ PrepCES.mkIndustryRow (Some "8111") (Some "8111")
      (Some "Automotive repair and maintenance") ].

Definition two_datatypes : list PrepCES.DatatypeRow :=
  [ PrepCES.mkDatatypeRow (Some "01") (Some "ALL EMPLOYEES, THOUSANDS");
    PrepCES.mkDatatypeRow (Some "03") (Some "AVERAGE HOURLY EARNINGS OF ALL EMPLOYEES") ].

(** * The entry point of prep_CES_pandas.py *)

Module PrepMain.

Import PrepCES.

(** The four files, their columns under the names [main] uses after its
    renaming. *)
Record Tables : Type := mkTables {
  data : list ObsRow;
  series : list SeriesRow;
  industry : list IndustryRow;
  datatype : list DatatypeRow
}.

(** An entry of [CAREER_NAICS]; an absent key reads as [None]. *)
Record Career : Type := mkCareer {
  career : string;
  naics_exact : option (list string);
  naics_prefixes : option (list string)
}.

Definition CAREER_NAICS : list Career :=
  [ mkCareer "mechanic" None (Some ["8111"]);
    mkCareer "graphic_designer" (Some ["54143"]) None;
    mkCareer "software_developer" (Some ["511210"]) (Some ["5415"]) ].

Definition MEASURES : list string := [EMP_TEXT; AHE_TEXT].

(** [.astype("string").str.strip()] on one entry. *)
Definition strip_cell (c : cell) : cell := option_map strip c.

(** Lines 117-125 on the three reference tables. *)
Definition strip_series (r : SeriesRow) : SeriesRow :=
  mkSeriesRow (strip_cell (sr_series_id r)) (strip_cell (sr_industry_code r))
              (strip_cell (sr_datatype_code r)) (sr_seasonal r).

Definition strip_industry (r : IndustryRow) : IndustryRow :=
  mkIndustryRow (strip_cell (ir_industry_code r)) (strip_cell (ir_naics_code r))
                (ir_industry_name r).

Definition strip_datatype (r : DatatypeRow) : DatatypeRow :=
  mkDatatypeRow (strip_cell (dr_datatype_code r)) (strip_cell (dr_datatype_text r)).

(** One entry of [data["year"].astype(int)]. *)
Definition year_of (c : cell) : result Z :=
  match c with
  | Some s =>
      match py_int s with
      | Some y => OK y
      | None => Raise (ValueError "invalid literal for int() with base 10")
      end
  | None =>
      (* int(pd.NA) *)
      Raise (TypeError "int() argument must be a string, a bytes-like object or a real number, not 'NAType'")
  end.

(** An observation with its numeric columns. *)
Record NumRow : Type := mkNumRow {
  n_series_id : cell; n_year : Z; n_period : cell; n_value : float64
}.

(** A row of the frame the careers are cut from: what [collapse_career]
    reads, and the classification code the mask is taken on. *)
Record CareerRow : Type := mkCareerRow {
  c_row : Row;
  c_naics_code : cell
}.

(** [s.isin(MEASURES)] on one entry. *)
Definition isin (values : list string) (c : cell) : bool :=
  match c with
  | Some s => existsb (String.eqb s) values
  | None => false
  end.

(** [df[m]] for a boolean mask [m]. *)
Definition select {A : Type} (df : list A) (m : list bool) : list A :=
  map fst (filter snd (combine df m)).

Definition out_name (c : Career) : string := career c ++ "_monthly_ces.csv".

(** [career_df = df[naics_mask(df["naics_code"], ...)]] *)
Definition career_df (df : list CareerRow) (c : Career) : list CareerRow :=
  select df (naics_mask (map c_naics_code df) (naics_exact c) (naics_prefixes c)).

(** The loop over the careers: the tables written so far, in order, and
    the exception that ended the loop if one did. An empty [career_df] is
    skipped; an exception of [collapse_career] leaves what was written. *)
Fixpoint write_careers (df : list CareerRow) (careers : list Career)
    (written : list (string * list OutRow))
  : list (string * list OutRow) * option exn :=
  match careers with
  | [] => (written, None)
  | c :: rest =>
      match career_df df c with
      | [] => write_careers df rest written
      | rows =>
          match collapse_career (map c_row rows) with
          | OK ts => write_careers df rest (written ++ [(out_name c, ts)])
          | Raise e => (written, Some e)
          end
      end
  end.

Section Main.

(** [pd.to_numeric(s, errors="coerce")] on one non-missing entry. *)
Variable to_numeric : string -> float64.

(** Lines 128-129, row by row: the year conversion raises on the first
    entry that is no integer, the value conversion never raises. *)
Definition numeric_rows (data : list ObsRow) : result (list NumRow) :=
  mapM (fun o =>
          y <- year_of (o_year o) ;;
          OK (mkNumRow (o_series_id o) y (o_period o)
                       (match o_value o with Some s => to_numeric s | None => NaN end)))
       data.

(** Lines 107-165: the frame of monthly rows of the two measures. *)
Definition career_rows (tables : Tables) : result (list CareerRow) :=
  data <- numeric_rows (map strip_keys (data tables)) ;;
  let series_dict :=
    series_dict (map strip_series (series tables))
                (map strip_industry (industry tables))
                (map strip_datatype (datatype tables)) in
  let data := filter (fun r => period_is_monthly (n_period r)) data in
  let df := merge_left cell_eqb n_series_id (fun d => sr_series_id (d_series d))
              (fun o d => (o, d)) data series_dict in
  dates <- make_date (map (fun r => n_year (fst r)) df)
                     (map (fun r => n_period (fst r)) df) ;;
  let df := map (fun dr =>
                   let d := snd (snd dr) in
                   mkCareerRow
                     (mkRow (fst dr)
                        (match d with Some x => sr_industry_code (d_series x) | None => None end)
                        (strip_cell (match d with Some x => d_datatype_text x | None => None end))
                        (n_value (fst (snd dr))))
                     (strip_cell (match d with Some x => d_naics_code x | None => None end)))
                (combine dates df) in
  OK (filter (fun r => isin MEASURES (datatype_text (c_row r))) df).

(** [main]: the tables written, by file name, and the exception that ended
    the run if one did. *)
Definition main (tables : Tables) : list (string * list OutRow) * option exn :=
  match career_rows tables with
  | OK df => write_careers df CAREER_NAICS []
  | Raise e => ([], Some e)
  end.

End Main.

(** *** Vocabulary for the properties of [main] *)

(** The table a career contributes when its turn in the loop ends well. *)
Definition career_table (df : list CareerRow) (c : Career)
  : list (string * list OutRow) :=
  match career_df df c with
  | [] => []
  | rows =>
      match collapse_career (map c_row rows) with
      | OK ts => [(out_name c, ts)]
      | Raise _ => []
      end
  end.

(** A career the loop passes without raising: no row matched, or the
    matched rows hold an earnings row. *)
Definition passes (df : list CareerRow) (c : Career) : Prop :=
  career_df df c = [] \/ has_earnings (map c_row (career_df df c)).

(** A career the loop stops at: rows matched, none of them an earnings
    row. *)
Definition stops (df : list CareerRow) (c : Career) : Prop :=
  career_df df c <> [] /\ ~ has_earnings (map c_row (career_df df c)).

End PrepMain.

(** A conversion for the examples: integer literals, everything else
    missing. *)
Definition int_numeric (s : string) : float64 :=
  match py_int s with
  | Some z => Fin (inject_Z z)
  | None => NaN
  end.

(** Example files for the prep script: one automotive series for each of
    the two measures, and a software series with employment only. *)
Definition prep_example_series : list PrepCES.SeriesRow :=
  [ PrepCES.mkSeriesRow (Some "CEU8081110001") (Some "80811100") (Some "01") (Some "U");
    PrepCES.mkSeriesRow (Some "CEU8081110003") (Some "80811100") (Some "03") (Some "U");
    PrepCES.mkSeriesRow (Some "CEU6054150001") (Some "60541500") (Some "01") (Some "U") ].

Definition prep_example_industry : list PrepCES.IndustryRow :=
  [ PrepCES.mkIndustryRow (Some "80811100") (Some "8111")
      (Some "Automotive repair and maintenance");
    PrepCES.mkIndustryRow (Some "60541500") (Some "5415")
      (Some "Computer systems design and related services") ].

(** Observations of the automotive series only. *)
Definition prep_example_mechanic : PrepMain.Tables :=
  PrepMain.mkTables
    [ mkObsRow (Some "CEU8081110001") (Some "2020") (Some "M01") (Some "850");
      mkObsRow (Some "CEU8081110003") (Some "2020") (Some "M01") (Some "25");
      mkObsRow (Some "CEU8081110001") (Some "2020") (Some "M13") (Some "860") ]
    prep_example_series prep_example_industry two_datatypes.

(** The same with an employment observation of the software series. *)
Definition prep_example_software : PrepMain.Tables :=
  PrepMain.mkTables
    (PrepMain.data prep_example_mechanic
     ++ [ mkObsRow (Some "CEU6054150001") (Some "2020") (Some "M01") (Some "2100") ])%list
    prep_example_series prep_example_industry two_datatypes.


(** * The downloads of load_CES_pandas.py *)

Module Download.

Definition BASE_URL : string := "https://download.bls.gov/pub/time.series/ce/".

Definition RAW_DIR : string := "raw/".

(** [FILES], in the order of the dict. *)
Definition FILES : list (string * string) :=
  [ ("data", "ce.data.0.ALLCESSeries"); ("series", "ce.series");
    ("industry", "ce.industry"); ("datatype", "ce.datatype");
    ("period", "ce.period") ].

(** The regular files on disk, by path, the latest binding of a path first,
    and the addresses requested so far. Directories are not represented:
    the [mkdir] of the parent is no part of the state. Exceptions of the
    file system ([mkdir], [stat], [write_bytes]) are not represented either:
    the embedding describes the calls during which none is raised, and the
    exceptions below are those of the request alone. *)
Record World : Type := mkWorld {
  files : list (string * string);
  requests : list string
}.

(** What [requests.get] meets: a response with its status and body, or an
    exception of the transport (no connection, timeout). *)
Inductive response : Type :=
| Response (status : Z) (content : string)
| TransportError.

Inductive download_exn : Type :=
| RequestException
| HTTPError (status : Z).

Fixpoint read (fs : list (string * string)) (path : string) : option string :=
  match fs with
  | [] => None
  | (p, c) :: fs' => if String.eqb path p then Some c else read fs' path
  end.

(** [dest.exists() and dest.stat().st_size > 0] *)
Definition cached (w : World) (dest : string) : bool :=
  match read (files w) dest with
  | Some c => (0 <? String.length c)%nat
  | None => false
  end.

Section Net.

(** The server, address by address. *)
Variable get : string -> response.

Definition download_file (name dest : string) (w : World) : World * option download_exn :=
  let url := BASE_URL ++ name in
  if cached w dest then (w, None)
  else
    let w := mkWorld (files w) (requests w ++ [url]) in
    match get url with
    | TransportError => (w, Some RequestException)
    | Response status content =>
        (* raise_for_status *)
        if (400 <=? status) && (status <? 600) then (w, Some (HTTPError status))
        else (mkWorld ((dest, content) :: files w) (requests w), None)
    end.

(** Step 1 of [main]: the files in turn, up to the first exception. *)
Fixpoint download_all (fs : list (string * string)) (w : World)
  : World * option download_exn :=
  match fs with
  | [] => (w, None)
  | (_, fname) :: rest =>
      match download_file fname (RAW_DIR ++ fname) w with
      | (w', None) => download_all rest w'
      | (w', Some e) => (w', Some e)
      end
  end.

End Net.

End Download.

(** A string that does not begin with white space. *)
Definition starts_clean (s : string) : Prop :=
  match s with
  | EmptyString => True
  | String c _ => isspace c = false
  end.

(** The dictionary of the one series of [newline_period_tables]. *)
Definition example_dict : list LoadCES.DictRow :=
  [ LoadCES.mkDictRow (Some "CEU8081110001") (Some "8111") (Some "01") (Some "U")
      (Some "Automotive repair and maintenance") (Some "All employees") ].

(** A disk without files, and a server that answers every address with
    the same short body. *)
Definition empty_world : Download.World := Download.mkWorld [] [].

Definition steady_server (url : string) : Download.response :=
  Download.Response 200 "series_id".

(** An earnings row alone. *)
Definition earnings_alone : list PrepCES.Row := [ earn_row jan20 "811100" (Fin 10) ].

(** An employment row alone: the rows of a career whose industries report
    employment and no hourly earnings. *)
Definition employment_alone : list PrepCES.Row := [ emp_row jan20 "541500" (Fin 2100) ].


(** ** Vocabulary for the extraction *)

(** The date [make_monthly_date] gives the row of a joined observation. *)
Definition row_date (r : LoadCES.Joined) : option Timestamp :=
  match month_of (LoadCES.j_period r) with
  | OK m => LoadCES.to_datetime_coerce
              (LoadCES.astype_str (LoadCES.j_year r) ++ "-" ++ zfill2 (py_str m) ++ "-01")
  | Raise _ => None
  end.

(** A joined monthly observation passes the three filters of the
    extraction. *)
Definition passes_filters (pred : cell -> bool) (whitelist : list string)
    (seasonal_filter : option string) (r : LoadCES.Joined) : Prop :=
  pred (LoadCES.j_industry_code r) = true /\
  LoadCES.isin whitelist (LoadCES.j_datatype_text r) = true /\
  (forall v, seasonal_filter = Some v -> LoadCES.j_seasonal r = Some v).

(** The joined monthly observations that pass the filters, in table order:
    the frame of [extract_proxy_dataset] when it reaches the date step. *)
Definition selected_rows (to_numeric : string -> float64) (tables : LoadCES.Tables)
    (series_dict : list LoadCES.DictRow) (pred : cell -> bool)
    (whitelist : list string) (seasonal_filter : option string) : list LoadCES.Joined :=
  let df := LoadCES.join_dict to_numeric
              (filter (fun o => period_is_monthly (o_period o)) (LoadCES.data tables))
              series_dict in
  let df := filter (fun r => pred (LoadCES.j_industry_code r)) df in
  let df := filter (fun r => LoadCES.isin whitelist (LoadCES.j_datatype_text r)) df in
  match seasonal_filter with
  | Some v => filter (fun r => cell_eqb (LoadCES.j_seasonal r) (Some v)) df
  | None => df
  end.

(** The date text of year [y] and month [m] reads as the first day of that
    month. *)
Definition first_of_month_entry (y m : Z) : bool :=
  match LoadCES.to_datetime_coerce (py_str y ++ "-" ++ zfill2 (py_str m) ++ "-01") with
  | Some t => (ts_year t =? y) && (ts_month t =? m) && (ts_day t =? 1)
  | None => false
  end.

(** * Properties *)

(** ** Strings and cells *)

Lemma cell_eqb_eq (a b : cell) : cell_eqb a b = true <-> a = b.
Proof.
  destruct a as [x|], b as [y|]; simpl; split; intros H;
    try discriminate; try reflexivity.
  - apply String.eqb_eq in H. now subst.
  - injection H as ->. apply String.eqb_refl.
Qed.

Lemma startswith_prefix (x p : string) :
  startswith x p = true <-> exists r, x = p ++ r.
Proof.
  revert x. induction p as [|a p IH]; intros x; simpl.
  - split; [intros _; now exists x | intros _; now destruct x].
  - destruct x as [|b x]; simpl.
    + split; [discriminate | intros [r Hr]; discriminate].
    + rewrite andb_true_iff, Ascii.eqb_eq, IH. split.
      * intros [-> [r ->]]. now exists r.
      * intros [r Hr]. injection Hr as -> ->. split; [reflexivity | now exists r].
Qed.

Lemma existsb_eqb_In (s : string) (l : list string) :
  existsb (String.eqb s) l = true <-> In s l.
Proof.
  rewrite existsb_exists. split.
  - intros [x [Hx He]]. apply String.eqb_eq in He. now subst.
  - intros H. exists s. split; [assumption | apply String.eqb_refl].
Qed.

(** ** The error monad *)

Lemma bind_OK {A B : Type} (m : result A) (k : A -> result B) (b : B) :
  bind m k = OK b <-> exists a, m = OK a /\ k a = OK b.
Proof.
  destruct m as [a|e]; simpl; split.
  - intros H. now exists a.
  - intros [a' [Ha Hk]]. now injection Ha as ->.
  - discriminate.
  - intros [a' [Ha _]]. discriminate.
Qed.

(** ** Left merge *)

Section MergeFacts.

Variables L R O K : Type.
Variable keq : K -> K -> bool.
Variable kl : L -> K.
Variable kr : R -> K.
Variable join : L -> option R -> O.
Hypothesis keq_eq : forall a b, keq a b = true <-> a = b.

Lemma filter_unique_key (k : K) (rs : list R) :
  NoDup (map kr rs) ->
  filter (fun r => keq k (kr r)) rs
  = match find (fun r => keq k (kr r)) rs with Some r => [r] | None => [] end.
Proof.
  induction rs as [|r rs IH]; simpl; intros Hnd; [reflexivity|].
  inversion Hnd as [|? ? Hnotin Hnd']; subst.
  destruct (keq k (kr r)) eqn:E.
  - f_equal. apply keq_eq in E.
    assert (Hnone : forall l, ~ In k (map kr l) -> filter (fun r0 => keq k (kr r0)) l = []).
    { induction l as [|z l IHl]; simpl; intros Hn; [reflexivity|].
      destruct (keq k (kr z)) eqn:Ez.
      - apply keq_eq in Ez. exfalso. apply Hn. now left.
      - apply IHl. intros Hin. apply Hn. now right. }
    apply Hnone. now rewrite E.
  - now apply IH.
Qed.

(** With unique right keys a left merge is a row-by-row lookup. *)
Lemma merge_left_unique (ls : list L) (rs : list R) :
  NoDup (map kr rs) ->
  merge_left keq kl kr join ls rs
  = map (fun l => join l (find (fun r => keq (kl l) (kr r)) rs)) ls.
Proof.
  intros Hnd. unfold merge_left.
  match goal with |- flat_map ?g _ = _ => set (f := g) end.
  induction ls as [|l ls IH]; [reflexivity|].
  simpl. rewrite IH. unfold f.
  rewrite filter_unique_key by assumption.
  now destruct (find (fun r => keq (kl l) (kr r)) rs).
Qed.

Lemma find_key_none (k : K) (rs : list R) :
  ~ In k (map kr rs) -> find (fun r => keq k (kr r)) rs = None.
Proof.
  induction rs as [|r rs IH]; simpl; intros Hn; [reflexivity|].
  destruct (keq k (kr r)) eqn:E.
  - apply keq_eq in E. exfalso. apply Hn. now left.
  - apply IH. intros Hin. apply Hn. now right.
Qed.

Lemma find_key_some (k : K) (rs : list R) (r : R) :
  find (fun r => keq k (kr r)) rs = Some r -> In r rs /\ kr r = k.
Proof.
  intros H. apply find_some in H. destruct H as [Hin Hk].
  apply keq_eq in Hk. now split.
Qed.

(** Every left row shows up in a left merge, whatever the right table. *)
Lemma merge_left_covers (ls : list L) (rs : list R) (l : L) :
  In l ls -> exists r, In (join l r) (merge_left keq kl kr join ls rs).
Proof.
  intros Hin. unfold merge_left.
  destruct (filter (fun r => keq (kl l) (kr r)) rs) as [|m ms] eqn:E.
  - exists None. apply in_flat_map. exists l. split; [assumption|].
    rewrite E. now left.
  - exists (Some m). apply in_flat_map. exists l. split; [assumption|].
    rewrite E. now left.
Qed.

End MergeFacts.

(** ** Column-name resolution and the series dictionary (load) *)

Module LoadFacts.

Import LoadCES.

Lemma mem_In (c : string) (cols : list string) : mem c cols = true <-> In c cols.
Proof. apply existsb_eqb_In. Qed.

Lemma first_present_some (cols candidates : list string) (c : string) :
  first_present cols candidates = Some c <->
  exists pre post, candidates = (pre ++ c :: post)%list /\ In c cols /\
                   forall x, In x pre -> ~ In x cols.
Proof.
  induction candidates as [|a rest IH]; simpl.
  - split; [discriminate | intros (pre & post & H & _)]. now destruct pre.
  - destruct (mem a cols) eqn:E.
    + apply mem_In in E. split.
      * intros H. injection H as <-. exists [], rest. now repeat split.
      * intros (pre & post & H & Hc & Hpre).
        destruct pre as [|p pre]; simpl in H; injection H as H1 H2; subst.
        -- reflexivity.
        -- exfalso. apply (Hpre p); [now left | assumption].
    + assert (Hn : ~ In a cols) by (rewrite <- mem_In, E; discriminate).
      rewrite IH. split.
      * intros (pre & post & -> & Hc & Hpre). exists (a :: pre), post.
        repeat split; [assumption|]. intros x [<-|Hx]; [assumption | now apply Hpre].
      * intros (pre & post & H & Hc & Hpre).
        destruct pre as [|p pre]; simpl in H; injection H as H1 H2; subst.
        -- contradiction.
        -- exists pre, post. repeat split; [assumption|].
           intros x Hx. apply Hpre. now right.
Qed.

Lemma first_present_none (cols candidates : list string) :
  first_present cols candidates = None <->
  forall c, In c candidates -> ~ In c cols.
Proof.
  induction candidates as [|a rest IH]; simpl.
  - split; [intros _ c [] | reflexivity].
  - destruct (mem a cols) eqn:E.
    + apply mem_In in E. split; [discriminate|].
      intros H. exfalso. apply (H a); [now left | assumption].
    + assert (Hn : ~ In a cols) by (rewrite <- mem_In, E; discriminate).
      rewrite IH. split.
      * intros H c [<-|Hc]; [assumption | now apply H].
      * intros H c Hc. apply H. now right.
Qed.

Lemma find_col_In (df : DataFrame) (candidates : list string) (c : string) :
  find_col df candidates = OK c -> In c candidates /\ In c (columns df).
Proof.
  unfold find_col. destruct (first_present (columns df) candidates) as [c'|] eqn:E;
    [|discriminate].
  intros H. injection H as ->. apply first_present_some in E.
  destruct E as (pre & post & -> & Hc & _). split; [|assumption].
  apply in_or_app. right. now left.
Qed.

Lemma build_dictionary_aborts (tables : Tables) :
  Exists lookup_fails (lookups tables) ->
  exists l, In l (lookups tables) /\
            build_dictionary tables = Raise (KeyError (snd l) (columns (fst l))).
Proof.
  intros Hex. unfold build_dictionary.
  repeat match goal with
  | |- context [bind (find_col ?df ?cs) _] =>
      let E := fresh "E" in
      destruct (find_col df cs) as [?|?] eqn:E;
      [ cbn [bind]
      | unfold find_col in E;
        destruct (first_present (columns df) cs); [discriminate|];
        injection E as <-;
        exists (df, cs); split; [unfold lookups; simpl; tauto | reflexivity] ]
  end.
  exfalso. unfold lookups in Hex.
  repeat match goal with
  | H : Exists _ (_ :: _) |- _ => inversion H; clear H; subst
  | H : Exists _ [] |- _ => inversion H
  | H : lookup_fails _ |- _ => destruct H as [e He]; simpl in He; congruence
  end.
Qed.

(** C10. Column-name resolution returns the first candidate, in list
    order, that is a column of the table; it raises exactly when no
    candidate is a column, and the KeyError then carries the candidates
    tried and the columns seen. A failed lookup is fatal: when one of the
    lookups of [build_dictionary] fails, [build_dictionary] raises that
    KeyError and [main] raises with it, so that no proxy is extracted. *)
Theorem find_col_first_candidate_or_fatal :
  (forall (df : DataFrame) (candidates : list string),
      (forall c, find_col df candidates = OK c <->
                 exists pre post, candidates = (pre ++ c :: post)%list /\
                                  In c (columns df) /\
                                  forall x, In x pre -> ~ In x (columns df))
      /\ ((exists e, find_col df candidates = Raise e) <->
          forall c, In c candidates -> ~ In c (columns df))
      /\ (forall e, find_col df candidates = Raise e ->
                    e = KeyError candidates (columns df)))
  /\ (forall (to_numeric : string -> float64) (tables : Tables),
         Exists lookup_fails (lookups tables) ->
         exists l, In l (lookups tables) /\
                   build_dictionary tables = Raise (KeyError (snd l) (columns (fst l))) /\
                   main to_numeric tables = Raise (KeyError (snd l) (columns (fst l)))).
Proof.
  split.
  - intros df candidates. unfold find_col. repeat split.
    + destruct (first_present (columns df) candidates) as [c'|] eqn:E.
      * intros H. injection H as <-. now apply first_present_some.
      * discriminate.
    + intros H. apply first_present_some in H. now rewrite H.
    + intros [e He]. apply first_present_none.
      now destruct (first_present (columns df) candidates).
    + intros H. apply first_present_none in H. rewrite H. eauto.
    + intros e. destruct (first_present (columns df) candidates); [discriminate|].
      intros H. now injection H as <-.
  - intros to_numeric tables Hex.
    destruct (build_dictionary_aborts Hex) as (l & Hin & Hb).
    exists l. repeat split; [assumption | assumption |].
    unfold main. now rewrite Hb.
Qed.

Lemma getitem_present (df : DataFrame) (cs : list string) :
  (forall c, In c cs -> In c (columns df)) ->
  getitem df cs
  = OK (mkDataFrame cs (map (fun row => map (fun c => at_col df c row) cs) (rows df))).
Proof.
  intros H. unfold getitem.
  destruct (filter (fun c => negb (mem c (columns df))) cs) as [|c l] eqn:E; [reflexivity|].
  assert (Hc : In c (filter (fun c => negb (mem c (columns df))) cs))
    by (rewrite E; now left).
  apply filter_In in Hc. destruct Hc as [Hin Hc].
  apply H, mem_In in Hin. rewrite Hin in Hc. discriminate.
Qed.

Lemma getitem_raises (df : DataFrame) (cs : list string) (c : string) :
  In c cs -> ~ In c (columns df) -> exists e, getitem df cs = Raise e.
Proof.
  intros Hin Hc. unfold getitem.
  destruct (filter (fun c => negb (mem c (columns df))) cs) as [|c' l] eqn:E; [|eauto].
  exfalso.
  assert (Hf : In c (filter (fun c => negb (mem c (columns df))) cs)).
  { apply filter_In. split; [assumption|]. apply negb_true_iff.
    destruct (mem c (columns df)) eqn:Em; [|reflexivity].
    apply mem_In in Em. contradiction. }
  now rewrite E in Hf.
Qed.

Ltac split_candidates :=
  repeat match goal with
  | H : In _ (_ :: _) |- _ => destruct H as [<-|H]
  | H : In _ [] |- _ => destruct H
  end.

(** Selecting and renaming the series columns reads them off the
    normalised series table. *)
Lemma series_rows_selected (s : DataFrame) (sid ic dc : string) :
  In sid ["series_id"] ->
  In ic ["industry_code"; "industry"; "industry_cd"] ->
  In dc ["data_type_code"; "data_type_code"; "datatype"; "datatype_cd"] ->
  series_rows
    (rename [(sid, "series_id"); (ic, "industry_code"); (dc, "datatype_code")]
       (mkDataFrame [sid; ic; dc; "seasonal"]
          (map (fun row => map (fun c => at_col s c row) [sid; ic; dc; "seasonal"])
               (rows s))))
  = map (fun row => mkSeriesRow (at_col s sid row) (at_col s ic row)
                                (at_col s dc row) (at_col s "seasonal" row))
        (rows s).
Proof.
  intros H1 H2 H3. split_candidates;
    unfold series_rows, rename; cbn [rows]; rewrite map_map; apply map_ext; intros row; reflexivity.
Qed.

Lemma industry_rows_selected (i : DataFrame) (icc inm : string) :
  In icc ["industry_code"; "industry"; "industry_cd"] ->
  In inm ["industry_name"; "industry_text"; "industry_title"] ->
  industry_rows
    (rename [(icc, "industry_code"); (inm, "industry_name")]
       (mkDataFrame [icc; inm]
          (map (fun row => map (fun c => at_col i c row) [icc; inm]) (rows i))))
  = map (fun row => mkIndustryRow (at_col i icc row) (at_col i inm row)) (rows i).
Proof.
  intros H1 H2. split_candidates;
    unfold industry_rows, rename; cbn [rows]; rewrite map_map; apply map_ext; intros row; reflexivity.
Qed.

Lemma datatype_rows_selected (d : DataFrame) (dcc dtx : string) :
  In dcc ["data_type_code"; "data_type"; "data_type_cd"] ->
  In dtx ["data_type_text"; "data_type_name"; "data_type_title"] ->
  datatype_rows
    (rename [(dcc, "datatype_code"); (dtx, "datatype_text")]
       (mkDataFrame [dcc; dtx]
          (map (fun row => map (fun c => at_col d c row) [dcc; dtx]) (rows d))))
  = map (fun row => mkDatatypeRow (at_col d dcc row) (at_col d dtx row)) (rows d).
Proof.
  intros H1 H2. split_candidates;
    unfold datatype_rows, rename; cbn [rows]; rewrite map_map; apply map_ext; intros row; reflexivity.
Qed.

Lemma build_dictionary_rows (tables : Tables) :
  keyed_uniquely (normalize (industry tables)) ["industry_code"; "industry"; "industry_cd"] ->
  keyed_uniquely (normalize (datatype tables)) ["data_type_code"; "data_type"; "data_type_cd"] ->
  Forall lookup_succeeds (lookups tables) ->
  In "seasonal" (columns (normalize (series tables))) ->
  exists dict,
    build_dictionary tables = OK dict /\
    dictionary_of (normalize (series tables)) (normalize (industry tables))
                  (normalize (datatype tables)) dict.
Proof.
  intros Ui Ud Hall Hseas.
  unfold lookups in Hall.
  repeat match goal with
  | H : Forall _ (_ :: _) |- _ => inversion H; clear H; subst
  | H : Forall _ [] |- _ => clear H
  | H : lookup_succeeds _ |- _ => destruct H as [? H]; cbn [fst snd] in H
  end.
  set (s := normalize (series tables)) in *.
  set (i := normalize (industry tables)) in *.
  set (d := normalize (datatype tables)) in *.
  match goal with
  | H1 : find_col s ["series_id"] = OK ?sid,
    H2 : find_col s ["industry_code"; "industry"; "industry_cd"] = OK ?ic,
    H3 : find_col s ["data_type_code"; "data_type_code"; "datatype"; "datatype_cd"] = OK ?dc,
    H4 : find_col i ["industry_code"; "industry"; "industry_cd"] = OK ?icc,
    H5 : find_col d ["data_type_code"; "data_type"; "data_type_cd"] = OK ?dcc,
    H6 : find_col i ["industry_name"; "industry_text"; "industry_title"] = OK ?inm,
    H7 : find_col d ["data_type_text"; "data_type_name"; "data_type_title"] = OK ?dtx |- _ =>
      pose proof (find_col_In _ _ H1) as [I1 C1];
      pose proof (find_col_In _ _ H2) as [I2 C2];
      pose proof (find_col_In _ _ H3) as [I3 C3];
      pose proof (find_col_In _ _ H4) as [I4 C4];
      pose proof (find_col_In _ _ H5) as [I5 C5];
      pose proof (find_col_In _ _ H6) as [I6 C6];
      pose proof (find_col_In _ _ H7) as [I7 C7];
      pose proof (Ui _ H4) as Ni; pose proof (Ud _ H5) as Nd;
      unfold build_dictionary; fold s i d;
      rewrite H1, H2, H3, H4, H5, H6, H7; cbn [bind];
      rewrite (@getitem_present s [sid; ic; dc; "seasonal"]);
      [ | intros c [<-|[<-|[<-|[<-|[]]]]]; assumption ];
      rewrite (@getitem_present i [icc; inm]);
      [ | intros c [<-|[<-|[]]]; assumption ];
      rewrite (@getitem_present d [dcc; dtx]);
      [ | intros c [<-|[<-|[]]]; assumption ];
      cbn [bind];
      rewrite series_rows_selected, industry_rows_selected, datatype_rows_selected
        by assumption
  end.
  unfold merge_datatype, merge_industry.
  unfold column in Ni, Nd.
  rewrite (@merge_left_unique _ _ _ _ cell_eqb _ ir_industry_code _ cell_eqb_eq);
    [ | now rewrite map_map ].
  rewrite (@merge_left_unique _ _ _ _ cell_eqb _ dr_datatype_code _ cell_eqb_eq);
    [ | now rewrite map_map ].
  eexists. split; [reflexivity|].
  constructor.
  - now rewrite !length_map.
  - eexists. split; [eassumption|]. unfold column. now rewrite !map_map.
  - eexists. split; [eassumption|]. unfold column. now rewrite !map_map.
  - eexists. split; [eassumption|]. unfold column. now rewrite !map_map.
  - unfold column. now rewrite !map_map.
  - eexists. split; [eassumption|]. intros r Hr Hn.
    rewrite map_map in Hr. apply in_map_iff in Hr. destruct Hr as (row & <- & _).
    cbn in Hn |- *.
    rewrite (@find_key_none _ _ cell_eqb _ cell_eqb_eq); [reflexivity|].
    unfold column in Hn. now rewrite map_map.
  - eexists. split; [eassumption|]. intros r Hr Hn.
    rewrite map_map in Hr. apply in_map_iff in Hr. destruct Hr as (row & <- & _).
    cbn in Hn |- *.
    rewrite (@find_key_none _ _ cell_eqb _ cell_eqb_eq); [reflexivity|].
    unfold column in Hn. now rewrite map_map.
Qed.

End LoadFacts.

(** ** Grouping and sorting *)

Section OrderFacts.

Variables K A : Type.
Variable cmp : K -> K -> comparison.
Variable key : A -> K.

Hypothesis cmp_eq : forall a b, cmp a b = Eq <-> a = b.
Hypothesis cmp_trans : forall a b c, cmp a b = Lt -> cmp b c = Lt -> cmp a c = Lt.
Hypothesis cmp_antisym : forall a b, cmp b a = CompOpp (cmp a b).

Lemma key_eqb_eq (a b : K) : key_eqb cmp a b = true <-> a = b.
Proof.
  unfold key_eqb. rewrite <- cmp_eq.
  destruct (cmp a b); split; congruence.
Qed.

Lemma insert_key_In (k x : K) (ks : list K) :
  In x (insert_key cmp k ks) <-> x = k \/ In x ks.
Proof.
  induction ks as [|k' ks IH]; simpl.
  - intuition.
  - destruct (cmp k k') eqn:E; simpl.
    + apply cmp_eq in E. subst. intuition.
    + intuition.
    + rewrite IH. intuition.
Qed.

Lemma insert_key_sorted (k : K) (ks : list K) :
  StronglySorted (key_lt cmp) ks -> StronglySorted (key_lt cmp) (insert_key cmp k ks).
Proof.
  induction ks as [|k' ks IH]; simpl; intros Hs.
  - repeat constructor.
  - inversion Hs as [|? ? Hs' Hall]; subst.
    destruct (cmp k k') eqn:E.
    + assumption.
    + constructor; [assumption|]. constructor; [assumption|].
      eapply Forall_impl; [|exact Hall]. intros z Hz. now apply cmp_trans with k'.
    + constructor; [now apply IH|].
      apply Forall_forall. intros z Hz. apply insert_key_In in Hz.
      destruct Hz as [->|Hz].
      * unfold key_lt. rewrite cmp_antisym, E. reflexivity.
      * now apply (proj1 (Forall_forall _ _) Hall).
Qed.

Lemma group_keys_In (l : list A) (k : K) :
  In k (group_keys cmp key l) <-> exists a, In a l /\ key a = k.
Proof.
  induction l as [|a l IH]; simpl.
  - split; [intros [] | intros [a [[] _]]].
  - rewrite insert_key_In, IH. split.
    + intros [->|[b [Hb Hk]]]; [exists a | exists b]; auto.
    + intros [b [[<-|Hb] Hk]]; [left | right; exists b]; auto.
Qed.

Lemma group_keys_sorted (l : list A) : StronglySorted (key_lt cmp) (group_keys cmp key l).
Proof.
  induction l as [|a l IH]; simpl; [constructor | now apply insert_key_sorted].
Qed.

Lemma key_lt_irrefl (a : K) : ~ key_lt cmp a a.
Proof.
  unfold key_lt. intros H. assert (E : cmp a a = Eq) by now apply cmp_eq.
  congruence.
Qed.

Lemma sorted_NoDup (ks : list K) : StronglySorted (key_lt cmp) ks -> NoDup ks.
Proof.
  induction 1 as [|k ks Hs IH Hall]; constructor; [|assumption].
  intros Hin. apply (proj1 (Forall_forall _ _) Hall) in Hin.
  now apply key_lt_irrefl in Hin.
Qed.

Lemma groupby_keys (l : list A) :
  map fst (groupby cmp key l) = group_keys cmp key l.
Proof. unfold groupby. rewrite map_map. apply map_id. Qed.

Lemma groupby_group (l : list A) (k : K) (g : list A) :
  In (k, g) (groupby cmp key l) ->
  g = filter (fun a => key_eqb cmp (key a) k) l /\ exists a, In a l /\ key a = k.
Proof.
  unfold groupby. intros H. apply in_map_iff in H.
  destruct H as (k' & Heq & Hin). injection Heq as -> <-.
  split; [reflexivity | now apply group_keys_In].
Qed.

End OrderFacts.

Section SortFacts.

Variable A : Type.
Variable leb : A -> A -> bool.

Lemma insert_sorted_last (x : A) (l : list A) :
  Forall (fun y => leb y x = true) l -> insert_sorted leb x l = (l ++ [x])%list.
Proof.
  induction 1 as [|y l Hy _ IH]; simpl; [reflexivity|].
  now rewrite Hy, IH.
Qed.

Lemma sorted_by_snoc (l : list A) (x : A) :
  sorted_by leb (l ++ [x])%list -> sorted_by leb l /\ Forall (fun y => leb y x = true) l.
Proof.
  induction l as [|y l IH]; simpl; intros Hs.
  - split; constructor.
  - inversion Hs as [|? ? Hs' Hall]; subst.
    destruct (IH Hs') as [Hl Hx].
    apply Forall_app in Hall. destruct Hall as [Hall Hyx].
    split; constructor; try assumption.
    now inversion Hyx.
Qed.

Lemma sort_values_snoc (l : list A) (x : A) :
  sort_values leb (l ++ [x])%list = insert_sorted leb x (sort_values leb l).
Proof. unfold sort_values. now rewrite rev_app_distr. Qed.

(** Sorting a table that is already in order leaves it as it is. *)
Lemma sort_values_sorted (l : list A) : sorted_by leb l -> sort_values leb l = l.
Proof.
  induction l as [|x l IH] using rev_ind; intros Hs; [reflexivity|].
  apply sorted_by_snoc in Hs. destruct Hs as [Hl Hx].
  rewrite sort_values_snoc, IH by assumption.
  now apply insert_sorted_last.
Qed.

Lemma insert_sorted_perm (x : A) (l : list A) :
  Permutation (x :: l) (insert_sorted leb x l).
Proof.
  induction l as [|y l IH]; simpl; [reflexivity|].
  destruct (leb y x); [|reflexivity].
  rewrite perm_swap. now constructor.
Qed.

(** [sort_values] rearranges rows; it neither adds nor drops one. *)
Lemma sort_values_perm (l : list A) : Permutation l (sort_values leb l).
Proof.
  induction l as [|x l IH] using rev_ind; [reflexivity|].
  rewrite sort_values_snoc, <- insert_sorted_perm, <- IH.
  rewrite Permutation_app_comm. reflexivity.
Qed.

End SortFacts.

(** ** Timestamps are totally ordered *)

Lemma ts_compare_eq (a b : Timestamp) : ts_compare a b = Eq <-> a = b.
Proof.
  destruct a as [y1 m1 d1], b as [y2 m2 d2]. unfold ts_compare. simpl.
  destruct (Z.compare_spec y1 y2); destruct (Z.compare_spec m1 m2);
    destruct (Z.compare_spec d1 d2); split; intros Heq;
    try discriminate; try (injection Heq; intros; lia); subst; reflexivity.
Qed.

Lemma ts_compare_antisym (a b : Timestamp) : ts_compare b a = CompOpp (ts_compare a b).
Proof.
  destruct a as [y1 m1 d1], b as [y2 m2 d2]. unfold ts_compare. simpl.
  rewrite (Z.compare_antisym y1 y2), (Z.compare_antisym m1 m2), (Z.compare_antisym d1 d2).
  destruct (y1 ?= y2), (m1 ?= m2), (d1 ?= d2); reflexivity.
Qed.

Lemma ts_compare_trans (a b c : Timestamp) :
  ts_compare a b = Lt -> ts_compare b c = Lt -> ts_compare a c = Lt.
Proof.
  destruct a as [y1 m1 d1], b as [y2 m2 d2], c as [y3 m3 d3]. unfold ts_compare. simpl.
  destruct (Z.compare_spec y1 y2); destruct (Z.compare_spec m1 m2);
    destruct (Z.compare_spec d1 d2); try discriminate; intros _;
    destruct (Z.compare_spec y2 y3); destruct (Z.compare_spec m2 m3);
    destruct (Z.compare_spec d2 d3); try discriminate; intros _;
    destruct (Z.compare_spec y1 y3); destruct (Z.compare_spec m1 m3);
    destruct (Z.compare_spec d1 d3); try reflexivity; lia.
Qed.

Lemma ts_eqb_eq (a b : Timestamp) : PrepCES.ts_eqb a b = true <-> a = b.
Proof. apply key_eqb_eq, ts_compare_eq. Qed.

Section GroupLookup.

Variables A B : Type.
Variable key : A -> Timestamp.
Variable G : Timestamp -> B.

(** Looking a date up in a grouped table finds the group of that date,
    if the table has a row for it. *)
Lemma lookup_group (l : list A) (d : Timestamp) (dflt : B) :
  match find (fun r => PrepCES.ts_eqb d (fst r))
             (map (fun k => (k, G k)) (group_keys ts_compare key l)) with
  | Some x => snd x
  | None => dflt
  end
  = match filter (fun a => PrepCES.ts_eqb (key a) d) l with
    | [] => dflt
    | _ => G d
    end.
Proof.
  destruct (find _ _) as [[k b]|] eqn:F.
  - apply find_some in F. destruct F as [Hin Hk]. simpl in Hk.
    apply ts_eqb_eq in Hk. subst k.
    apply in_map_iff in Hin. destruct Hin as (k & Hkb & Hin).
    injection Hkb as -> <-.
    apply (group_keys_In ts_compare key ts_compare_eq) in Hin.
    destruct Hin as (a & Ha & Hd).
    destruct (filter _ l) as [|x xs] eqn:E; [|reflexivity].
    exfalso. assert (Hf : In a (filter (fun a => PrepCES.ts_eqb (key a) d) l)).
    { apply filter_In. split; [assumption | now apply ts_eqb_eq]. }
    now rewrite E in Hf.
  - destruct (filter _ l) as [|x xs] eqn:E; [reflexivity|].
    exfalso.
    assert (Hx : In x (filter (fun a => PrepCES.ts_eqb (key a) d) l))
      by (rewrite E; now left).
    apply filter_In in Hx. destruct Hx as [Hx Hd]. apply ts_eqb_eq in Hd.
    assert (Hk : In d (group_keys ts_compare key l))
      by (apply (group_keys_In ts_compare key ts_compare_eq); eauto).
    assert (Hf : PrepCES.ts_eqb d (fst (d, G d)) = false).
    { apply (find_none _ _ F (d, G d)). apply in_map_iff. now exists d. }
    simpl in Hf. assert (Ht : PrepCES.ts_eqb d d = true) by now apply ts_eqb_eq.
    congruence.
Qed.

End GroupLookup.

Lemma StronglySorted_map_leb {A B : Type} (R : A -> A -> Prop) (leb : B -> B -> bool)
    (f : A -> B) (l : list A) :
  (forall a b, R a b -> leb (f a) (f b) = true) ->
  StronglySorted R l -> sorted_by leb (map f l).
Proof.
  intros Hf. induction 1 as [|a l Hs IH Hall]; simpl; constructor; [assumption|].
  apply Forall_map. eapply Forall_impl; [|exact Hall]. intros b. apply Hf.
Qed.

(** ** The weighted aggregator (prep) *)

Module PrepFacts.

Import PrepCES.

Lemma merged_nil (df : list Row) : merged df = [] -> earn_rows df = [].
Proof.
  unfold merged, merge_weights, merge_left.
  destruct (earn_rows df) as [|e es]; [reflexivity|]. simpl.
  destruct (filter _ (emp_rows df)); discriminate.
Qed.

(** The table [collapse_career] returns, row by row. *)
Lemma collapse_career_rows (df : list Row) :
  earn_rows df <> [] ->
  collapse_career df
  = OK (map (fun d => mkOutRow d (nansum (employment_on df d)) (avg_on df d))
            (emp_dates df)).
Proof.
  intros Hne. unfold collapse_career.
  fold (emp_rows df) (earn_rows df) (merged df).
  unfold earnings_by_date.
  destruct (merged df) as [|m ms] eqn:Em; [now apply merged_nil in Em|].
  rewrite <- Em. clear m ms Em. cbn [bind]. f_equal.
  unfold employment_by_date, groupby. rewrite !map_map. cbn [fst snd].
  rewrite (@merge_left_unique _ _ _ _ ts_eqb fst fst _ ts_eqb_eq).
  2:{ rewrite map_map. cbn [fst]. rewrite map_id.
      eapply sorted_NoDup with (cmp := ts_compare);
        [exact ts_compare_eq | apply group_keys_sorted];
        [exact ts_compare_eq | exact ts_compare_trans | exact ts_compare_antisym]. }
  rewrite map_map. cbn [fst snd].
  rewrite sort_values_sorted.
  - apply map_ext. intros d. f_equal.
    etransitivity.
    + exact (lookup_group (fun r => date (e_row r))
               (fun k => weighted_mean
                           (filter (fun a => key_eqb ts_compare (date (e_row a)) k) (merged df)))
               (merged df) d NaN).
    + unfold avg_on, merged_on, ts_eqb.
      now destruct (filter _ (merged df)).
  - apply StronglySorted_map_leb with (R := key_lt ts_compare).
    + intros a b Hab. unfold date_le. cbn [o_date]. unfold key_lt in Hab.
      now rewrite Hab.
    + apply group_keys_sorted;
        [exact ts_compare_eq | exact ts_compare_trans | exact ts_compare_antisym].
Qed.

End PrepFacts.

(** ** Sums that skip missing values *)

Lemma na_or_not_inf (P : Q -> Prop) (l : list float64) :
  Forall (na_or P) l -> Forall not_inf l.
Proof.
  apply Forall_impl. intros [q| | |]; simpl; tauto.
Qed.

Lemma fold_fadd_finite (l : list float64) (a : Q) :
  Forall not_inf l ->
  exists s, fold_left fadd (filter notna l) (Fin a) = Fin s /\
            (s == a + qsum (fin_vals l))%Q.
Proof.
  intros H. revert a. induction H as [|x l Hx _ IH]; intros a; simpl.
  - exists a. split; [reflexivity | unfold qsum; cbn [fold_right]; ring].
  - destruct x as [q| | |]; try contradiction; cbn [filter notna isna negb fold_left fadd fin_vals flat_map].
    + destruct (IH (a + q)%Q) as (s & Hs & Hq). exists s. split; [assumption|].
      rewrite Hq. unfold qsum. rewrite fold_right_app. cbn [fold_right]. ring.
    + apply IH.
Qed.

(** Without infinities, [nansum] is the sum of the finite entries. *)
Lemma nansum_finite (l : list float64) :
  Forall not_inf l -> exists s, nansum l = Fin s /\ (s == qsum (fin_vals l))%Q.
Proof.
  intros H. destruct (fold_fadd_finite 0 H) as (s & Hs & Hq).
  exists s. split; [exact Hs | rewrite Hq; ring].
Qed.

(** A column of missing values sums to zero, not to a missing value. *)
Lemma nansum_all_na (l : list float64) :
  Forall (fun x => isna x = true) l -> nansum l = Fin 0.
Proof.
  intros H. unfold nansum.
  replace (filter notna l) with (@nil float64); [reflexivity|].
  induction H as [|x l Hx _ IH]; simpl; [reflexivity|].
  unfold notna. now rewrite Hx.
Qed.

Lemma qsum_nonneg (l : list Q) : Forall (fun q => 0 <= q)%Q l -> (0 <= qsum l)%Q.
Proof.
  induction 1 as [|q l Hq _ IH]; unfold qsum in *; cbn [fold_right]; cbv beta in *; lra.
Qed.

Lemma qsum_zero_all_zero (l : list Q) :
  Forall (fun q => 0 <= q)%Q l -> (qsum l == 0)%Q -> Forall (fun q => q == 0)%Q l.
Proof.
  induction 1 as [|q l Hq Hl IH]; intros Hs; constructor.
  - apply qsum_nonneg in Hl. unfold qsum in *. cbn [fold_right] in Hs.
    cbv beta in *. lra.
  - apply IH. pose proof (qsum_nonneg Hl). unfold qsum in *. cbn [fold_right] in Hs.
    cbv beta in *. lra.
Qed.

Lemma fin_vals_na_or (P : Q -> Prop) (l : list float64) :
  Forall (na_or P) l -> Forall P (fin_vals l).
Proof.
  induction 1 as [|x l Hx _ IH]; simpl; [constructor|].
  destruct x; simpl in *; try contradiction; [now constructor | assumption].
Qed.

Lemma na_or_of_fin_vals (P : Q -> Prop) (l : list float64) :
  Forall not_inf l -> Forall P (fin_vals l) -> Forall (na_or P) l.
Proof.
  induction 1 as [|x l Hx _ IH]; simpl; intros H; [constructor|].
  destruct x; simpl in *; try contradiction.
  - inversion H; subst. constructor; [assumption | now apply IH].
  - constructor; [exact I | now apply IH].
Qed.

(** Non-negative weights sum to zero only when each of them is zero. *)
Lemma nonneg_zero_sum (l : list float64) :
  Forall (na_or (fun q => 0 <= q)%Q) l -> feq (nansum l) (Fin 0) ->
  Forall (na_or (fun q => q == 0)%Q) l.
Proof.
  intros H Hs. pose proof (na_or_not_inf H) as Hni.
  destruct (nansum_finite Hni) as (s & Es & Hq). rewrite Es in Hs. simpl in Hs.
  apply na_or_of_fin_vals; [assumption|].
  apply qsum_zero_all_zero; [now apply fin_vals_na_or|].
  now rewrite <- Hq.
Qed.

Lemma nansum_zeros (l : list float64) :
  Forall (na_or (fun q => q == 0)%Q) l -> exists s, nansum l = Fin s /\ (s == 0)%Q.
Proof.
  intros H. destruct (nansum_finite (na_or_not_inf H)) as (s & Es & Hq).
  exists s. split; [assumption|]. rewrite Hq.
  apply fin_vals_na_or in H. clear Es Hq.
  induction H as [|q l' Hq _ IH]; unfold qsum in *; cbn [fold_right]; [reflexivity|].
  rewrite Hq, IH. ring.
Qed.

(** Any value times a missing or zero weight is missing or zero. *)
Lemma fmul_zero_weight (e w : float64) :
  na_or (fun q => q == 0)%Q w -> na_or (fun q => q == 0)%Q (fmul e w).
Proof.
  destruct w as [q| | |]; simpl; try contradiction.
  - intros Hq. destruct e as [a| | |]; simpl; try exact I.
    + rewrite Hq. ring.
    + apply Qeq_alt in Hq. now rewrite Hq.
    + apply Qeq_alt in Hq. now rewrite Hq.
  - intros _. now destruct e.
Qed.

(** ** Claims about the weighted aggregator *)

Module Aggregator.

Import PrepCES PrepFacts.

Lemma text_is_true (t : string) (r : Row) :
  text_is t r = true <-> datatype_text r = Some t.
Proof. apply cell_eqb_eq. Qed.

Lemma has_earnings_rows (df : list Row) : has_earnings df <-> earn_rows df <> [].
Proof.
  unfold has_earnings, earn_rows. split.
  - intros (r & Hin & Ht) E.
    assert (H : In r (filter (text_is AHE_TEXT) df))
      by (apply filter_In; split; [assumption | now apply text_is_true]).
    now rewrite E in H.
  - intros Hne. destruct (filter (text_is AHE_TEXT) df) as [|r rs] eqn:E; [congruence|].
    assert (H : In r (filter (text_is AHE_TEXT) df)) by (rewrite E; now left).
    apply filter_In in H. destruct H as [Hin Ht]. exists r.
    split; [assumption | now apply text_is_true].
Qed.

(** Without an earnings row the aggregation raises. *)
Lemma collapse_career_no_earnings (df : list Row) :
  ~ has_earnings df -> exists e, collapse_career df = Raise e.
Proof.
  intros H. assert (E : earn_rows df = []).
  { destruct (earn_rows df) eqn:E; [reflexivity|].
    exfalso. apply H, has_earnings_rows. congruence. }
  unfold collapse_career. fold (earn_rows df). rewrite E. simpl. eauto.
Qed.

Lemma collapse_career_OK (df : list Row) (out : list OutRow) :
  collapse_career df = OK out ->
  has_earnings df /\
  out = map (fun d => mkOutRow d (nansum (employment_on df d)) (avg_on df d))
            (emp_dates df).
Proof.
  intros H. destruct (earn_rows df) as [|r rs] eqn:E.
  - exfalso. unfold collapse_career in H. fold (earn_rows df) in H.
    rewrite E in H. discriminate.
  - assert (Hne : earn_rows df <> []) by congruence.
    split; [now apply has_earnings_rows|].
    rewrite (@collapse_career_rows df Hne) in H. now injection H as <-.
Qed.

Lemma out_dates (df : list Row) :
  map o_date (map (fun d => mkOutRow d (nansum (employment_on df d)) (avg_on df d))
                  (emp_dates df))
  = emp_dates df.
Proof. rewrite map_map. apply map_id. Qed.

Lemma emp_dates_In (df : list Row) (d : Timestamp) :
  In d (emp_dates df) <->
  exists r, In r df /\ datatype_text r = Some EMP_TEXT /\ date r = d.
Proof.
  unfold emp_dates. rewrite (group_keys_In ts_compare date ts_compare_eq).
  unfold emp_rows. split.
  - intros (r & Hr & Hd). apply filter_In in Hr. destruct Hr as [Hin Ht].
    exists r. repeat split; [assumption | now apply text_is_true | assumption].
  - intros (r & Hin & Ht & Hd). exists r. split; [|assumption].
    apply filter_In. split; [assumption | now apply text_is_true].
Qed.

Lemma emp_dates_sorted (df : list Row) :
  StronglySorted (fun a b => ts_compare a b = Lt) (emp_dates df).
Proof.
  apply group_keys_sorted;
    [exact ts_compare_eq | exact ts_compare_trans | exact ts_compare_antisym].
Qed.

(** C9. Whenever [collapse_career] returns a table, its dates are strictly
    ascending, hence without duplicates, and they are exactly the dates of
    the employment rows, one row each; and it returns a table for every
    input that has an earnings row. *)
Theorem collapse_career_dates_strictly_ascending :
  forall df : list Row,
    (has_earnings df <-> exists out, collapse_career df = OK out) /\
    (forall out, collapse_career df = OK out ->
       StronglySorted (fun a b => ts_compare a b = Lt) (map o_date out) /\
       NoDup (map o_date out) /\
       (forall d, In d (map o_date out) <->
                  exists r, In r df /\ datatype_text r = Some EMP_TEXT /\ date r = d)).
Proof.
  intros df. split.
  - split.
    + intros H. apply has_earnings_rows in H. eexists. now apply collapse_career_rows.
    + intros [out H]. now apply collapse_career_OK in H.
  - intros out H. apply collapse_career_OK in H. destruct H as [_ ->].
    rewrite out_dates. repeat split.
    + apply emp_dates_sorted.
    + eapply sorted_NoDup with (cmp := ts_compare);
        [exact ts_compare_eq | apply emp_dates_sorted].
    + now apply emp_dates_In.
    + now apply emp_dates_In.
Qed.

Lemma merged_e_row (df : list Row) (m : EarnRow) :
  In m (merged df) -> In (e_row m) (earn_rows df).
Proof.
  unfold merged, merge_weights, merge_left. intros H.
  apply in_flat_map in H. destruct H as (e & He & Hm).
  destruct (filter _ (emp_rows df)) as [|x xs].
  - destruct Hm as [<-|[]]. exact He.
  - apply in_map_iff in Hm. destruct Hm as (y & <- & _). exact He.
Qed.

Lemma avg_on_no_earnings (df : list Row) (d : Timestamp) :
  (forall r, In r df -> datatype_text r = Some AHE_TEXT -> date r <> d) ->
  avg_on df d = NaN.
Proof.
  intros H. unfold avg_on, merged_on.
  destruct (filter _ (merged df)) as [|m ms] eqn:E; [reflexivity|].
  exfalso. assert (Hm : In m (filter (fun r => ts_eqb (date (e_row r)) d) (merged df)))
    by (rewrite E; now left).
  apply filter_In in Hm. destruct Hm as [Hm Hd]. apply ts_eqb_eq in Hd.
  apply merged_e_row in Hm. unfold earn_rows in Hm. apply filter_In in Hm.
  destruct Hm as [Hin Ht]. apply text_is_true in Ht. exact (H _ Hin Ht Hd).
Qed.

Lemma In_out_row (df : list Row) (o : OutRow) :
  In o (map (fun d => mkOutRow d (nansum (employment_on df d)) (avg_on df d))
            (emp_dates df)) ->
  employment_thousands o = nansum (employment_on df (o_date o)) /\
  avg_hourly_earnings o = avg_on df (o_date o).
Proof.
  intros H. apply in_map_iff in H. destruct H as (d & <- & _). now split.
Qed.

(** C3, as the code has it. On a table with an earnings row the output
    holds every date of an employment row, with a missing average when no
    earnings row has that date; the output holds no other date, so a date
    that only earnings rows carry is left out. *)
Theorem employment_dates_kept_earnings_only_dropped :
  forall df : list Row,
    has_earnings df ->
    exists out,
      collapse_career df = OK out /\
      (forall r, In r df -> datatype_text r = Some EMP_TEXT ->
                 In (date r) (map o_date out)) /\
      (forall o, In o out ->
                 (forall r, In r df -> datatype_text r = Some AHE_TEXT ->
                            date r <> o_date o) ->
                 avg_hourly_earnings o = NaN) /\
      (forall d, In d (map o_date out) ->
                 exists r, In r df /\ datatype_text r = Some EMP_TEXT /\ date r = d).
Proof.
  intros df H. apply has_earnings_rows in H.
  eexists. split; [now apply collapse_career_rows|].
  rewrite out_dates. repeat split.
  - intros r Hin Ht. apply emp_dates_In. now exists r.
  - intros o Ho Hno. apply In_out_row in Ho. destruct Ho as [_ ->].
    now apply avg_on_no_earnings.
  - intros d Hd. now apply emp_dates_In.
Qed.

(** C4, as the code has it. The employment total of an output date is the
    sum of the employment values of that date with the missing ones left
    out; when all of them are missing the total is 0. *)
Theorem employment_total_skips_nulls :
  forall df : list Row,
    has_earnings df ->
    exists out,
      collapse_career df = OK out /\
      forall o, In o out ->
        let vs := employment_on df (o_date o) in
        employment_thousands o = nansum vs /\
        (Forall not_inf vs ->
         exists s, employment_thousands o = Fin s /\ (s == qsum (fin_vals vs))%Q) /\
        (Forall (fun v => isna v = true) vs -> employment_thousands o = Fin 0).
Proof.
  intros df H. apply has_earnings_rows in H.
  eexists. split; [now apply collapse_career_rows|].
  intros o Ho. apply In_out_row in Ho. destruct Ho as [-> _]. cbv zeta.
  split; [reflexivity|]. split.
  - apply nansum_finite.
  - apply nansum_all_na.
Qed.

Lemma weighted_mean_zero_weights (g : list EarnRow) :
  Forall (na_or (fun q => q == 0)%Q) (map emp_weight_thousands g) ->
  weighted_mean g = NaN.
Proof.
  intros H. unfold weighted_mean.
  destruct (nansum_zeros H) as (z & -> & Hz).
  assert (Hp : Forall (na_or (fun q => q == 0)%Q)
                 (map (fun r => fmul (value (e_row r)) (emp_weight_thousands r)) g)).
  { rewrite Forall_map in H |- *.
    eapply Forall_impl; [|exact H]. intros r. apply fmul_zero_weight. }
  destruct (nansum_zeros Hp) as (n & -> & Hn).
  simpl. apply Qeq_alt in Hz, Hn. now rewrite Hz, Hn.
Qed.

(** On an input with an earnings row the aggregation returns a table, and
    for an output date whose merged weights are each missing or
    non-negative and sum to zero (in particular when each is missing or
    zero) the weighted average is missing. *)
Lemma zero_weight_average_is_null :
  forall df : list Row,
    has_earnings df ->
    exists out,
      collapse_career df = OK out /\
      forall o, In o out ->
        let ws := map emp_weight_thousands (merged_on df (o_date o)) in
        (Forall (na_or (fun q => 0 <= q)%Q) ws -> feq (nansum ws) (Fin 0) ->
         avg_hourly_earnings o = NaN) /\
        (Forall (na_or (fun q => q == 0)%Q) ws -> avg_hourly_earnings o = NaN).
Proof.
  intros df H. apply has_earnings_rows in H.
  eexists. split; [now apply collapse_career_rows|].
  intros o Ho. apply In_out_row in Ho. destruct Ho as [_ ->]. cbv zeta.
  assert (Hz : Forall (na_or (fun q => q == 0)%Q)
                 (map emp_weight_thousands (merged_on df (o_date o))) ->
               avg_on df (o_date o) = NaN).
  { intros Hw. unfold avg_on. destruct (merged_on df (o_date o)) as [|m ms] eqn:E;
      [reflexivity|]. now apply weighted_mean_zero_weights. }
  split; [|exact Hz].
  intros Hnn Hs. apply Hz. now apply nonneg_zero_sum.
Qed.

Lemma two_industries_has_earnings : has_earnings two_industries.
Proof.
  exists (earn_row jan20 "811100" (Fin 10)).
  split; [right; right; left; reflexivity | reflexivity].
Defined.

Lemma collapse_career_dates_strictly_ascending_witness :
  exists out, collapse_career two_industries = OK out /\
              StronglySorted (fun a b => ts_compare a b = Lt) (map o_date out).
Proof.
  destruct (collapse_career_dates_strictly_ascending two_industries) as [Hex Hs].
  destruct (proj1 Hex two_industries_has_earnings) as [out Hout].
  exists out. split; [exact Hout | exact (proj1 (Hs out Hout))].
Defined.

Lemma employment_dates_kept_witness :
  has_earnings two_industries /\
  exists out, collapse_career two_industries = OK out /\
              In jan20 (map o_date out).
Proof.
  split; [exact two_industries_has_earnings|].
  destruct (employment_dates_kept_earnings_only_dropped two_industries_has_earnings)
    as (out & Hout & Hkept & _).
  exists out. split; [exact Hout|].
  apply (Hkept (emp_row jan20 "811100" (Fin 100))); [left; reflexivity | reflexivity].
Defined.

(** C3 as stated fails: February appears in an earnings row, and the
    output has no February row. *)
Lemma earnings_only_date_is_dropped :
  exists out,
    collapse_career earnings_only_date = OK out /\
    In (earn_row feb20 "811100" (Fin 10)) earnings_only_date /\
    ~ In feb20 (map o_date out).
Proof.
  eexists. split; [vm_compute; reflexivity|]. split.
  - right. left. reflexivity.
  - simpl. intros [H|[]]. discriminate H.
Qed.

Lemma employment_total_skips_nulls_witness :
  has_earnings two_industries /\
  exists out, collapse_career two_industries = OK out /\
              forall o, In o out ->
                employment_thousands o = nansum (employment_on two_industries (o_date o)).
Proof.
  split; [exact two_industries_has_earnings|].
  destruct (employment_total_skips_nulls two_industries_has_earnings) as (out & Hout & H).
  exists out. split; [exact Hout|].
  intros o Ho. exact (proj1 (H o Ho)).
Defined.

(** C4 as stated fails: every employment value of the date is missing,
    and the total is 0, which is not a missing value. *)
Lemma all_null_employment_totals_zero :
  exists o,
    collapse_career null_employment = OK [o] /\
    employment_on null_employment (o_date o) = [NaN] /\
    employment_thousands o = Fin 0 /\
    isna (employment_thousands o) = false.
Proof.
  eexists. split; [vm_compute; reflexivity|].
  repeat split; reflexivity.
Qed.

Lemma zero_weight_average_is_null_witness :
  has_earnings null_employment /\
  exists out, collapse_career null_employment = OK out /\
              forall o, In o out -> avg_hourly_earnings o = NaN.
Proof.
  assert (He : has_earnings null_employment).
  { exists (earn_row jan20 "811100" (Fin 10)).
    split; [right; left; reflexivity | reflexivity]. }
  split; [exact He|].
  destruct (zero_weight_average_is_null He) as (out & Hout & H).
  exists out. split; [exact Hout|].
  intros o Ho. apply (proj2 (H o Ho)).
  assert (Eo : o = mkOutRow jan20 (Fin 0) NaN).
  { vm_compute in Hout. injection Hout as <-. destruct Ho as [<-|[]]. reflexivity. }
  rewrite Eo. vm_compute. repeat constructor.
Defined.

(** Weights of opposite sign: with weights 5 and -5 and earnings 10 and 20
    the weights of the date sum to zero and the quotient is minus infinity. *)
Lemma cancelling_weights_average_not_null :
  exists o,
    collapse_career cancelling_weights = OK [o] /\
    feq (nansum (map emp_weight_thousands (merged_on cancelling_weights (o_date o))))
        (Fin 0) /\
    avg_hourly_earnings o = NInf /\
    isna (avg_hourly_earnings o) = false.
Proof.
  eexists. split; [vm_compute; reflexivity|].
  repeat split; reflexivity.
Qed.

Lemma nansum_map_filter {A : Type} (f : A -> float64) (p : A -> bool) (l : list A) :
  (forall x, p x = false -> isna (f x) = true) ->
  nansum (map f (filter p l)) = nansum (map f l).
Proof.
  intros H. unfold nansum. f_equal.
  induction l as [|x l IH]; simpl; [reflexivity|].
  destruct (p x) eqn:E; simpl; rewrite IH; [reflexivity|].
  unfold notna. now rewrite (H x E).
Qed.

Lemma fmul_na (e w : float64) :
  notna e && notna w = false -> isna (fmul e w) = true.
Proof. destruct e, w; simpl; intros H; try reflexivity; discriminate. Qed.

(** What the code computes for a group: the numerator ranges over the
    rows with both an earnings value and a weight, the denominator over
    every row with a weight. *)
Lemma weighted_mean_sums (g : list EarnRow) :
  weighted_mean g
  = fdiv (nansum (map (fun r => fmul (value (e_row r)) (emp_weight_thousands r))
                      (filter qualifying g)))
         (nansum (map emp_weight_thousands
                      (filter (fun r => notna (emp_weight_thousands r)) g))).
Proof.
  unfold weighted_mean. f_equal.
  - symmetry. apply nansum_map_filter. intros r. apply fmul_na.
  - symmetry. apply nansum_map_filter. intros r Hr.
    unfold notna in Hr. now apply negb_false_iff in Hr.
Qed.

(** When no row of the group has a weight without an earnings value, the
    code computes the weighted average of the specification. *)
Lemma weighted_mean_complete_rows (g : list EarnRow) :
  (forall r, In r g -> notna (emp_weight_thousands r) = true ->
             notna (value (e_row r)) = true) ->
  weighted_mean g = spec_weighted_average g.
Proof.
  intros H. rewrite weighted_mean_sums. unfold spec_weighted_average. cbv zeta.
  f_equal. f_equal. f_equal. apply filter_ext_in. intros r Hr.
  unfold qualifying. destruct (notna (emp_weight_thousands r)) eqn:E.
  - now rewrite (H r Hr E).
  - now rewrite andb_false_r.
Qed.

(** The example of the specification: earnings (10, 20) with weights
    (100, 300) average to 17.5. *)
Lemma two_industries_average :
  exists o,
    collapse_career two_industries = OK [o] /\
    feq (employment_thousands o) (Fin 400) /\
    feq (avg_hourly_earnings o) (Fin (35 # 2)).
Proof.
  eexists. split; [vm_compute; reflexivity|]. split; reflexivity.
Qed.

(** C1 fails on a row with a weight and no earnings value: the weight of
    that row stays in the denominator. With earnings (10, missing) and
    weights (100, 300) the code gives 1000/400 = 2.5, where the weighted
    average over the rows with both values is 10. *)
Theorem null_earnings_weight_stays_in_denominator :
  exists o,
    collapse_career null_earnings = OK [o] /\
    feq (avg_hourly_earnings o) (Fin (5 # 2)) /\
    feq (spec_weighted_average (merged_on null_earnings (o_date o))) (Fin 10).
Proof.
  eexists. split; [vm_compute; reflexivity|]. split; reflexivity.
Qed.

(** C5 fails on the rows of a career that hold employment and no earnings
    row: January has an employment row, no earnings row qualifies for it,
    and the aggregation raises an AttributeError where the claim has an
    output row for January with a missing average and no exception. *)
Theorem employment_without_earnings_raises :
  emp_dates employment_alone = [jan20] /\
  earn_rows employment_alone = [] /\
  merged_on employment_alone jan20 = [] /\
  collapse_career employment_alone
  = Raise (AttributeError "'DataFrame' object has no attribute 'to_frame'").
Proof. repeat split; reflexivity. Qed.

End Aggregator.

(** ** The classification matcher *)

Module Matcher.

Import PrepCES.

Lemma existsb_stripped_eq (x : string) (l : list string) :
  existsb (String.eqb x) (map strip l) = true <-> exists e, In e l /\ x = strip e.
Proof.
  rewrite existsb_exists. split.
  - intros (y & Hy & He). apply in_map_iff in Hy. destruct Hy as (e & <- & Hin).
    apply String.eqb_eq in He. now exists e.
  - intros (e & Hin & ->). exists (strip e).
    split; [now apply in_map | apply String.eqb_refl].
Qed.

Lemma existsb_stripped_prefix (x : string) (l : list string) :
  existsb (startswith x) (map strip l) = true <->
  exists p, In p l /\ exists rest, x = strip p ++ rest.
Proof.
  rewrite existsb_exists. split.
  - intros (y & Hy & Hp). apply in_map_iff in Hy. destruct Hy as (p & <- & Hin).
    apply startswith_prefix in Hp. now exists p.
  - intros (p & Hin & Hp). exists (strip p).
    split; [now apply in_map | now apply startswith_prefix].
Qed.

(** The mask without the emptiness tests: an empty or absent list
    contributes nothing either way. *)
Lemma naics_mask1_unfold (exact prefixes : option (list string)) (v : cell) :
  naics_mask1 exact prefixes v
  = match v with
    | Some s => existsb (String.eqb (strip s)) (map strip (codes_of exact))
                || existsb (startswith (strip s)) (map strip (codes_of prefixes))
    | None => false
    end.
Proof.
  unfold naics_mask1.
  destruct exact as [[|e es]|], prefixes as [[|p ps]|], v as [s|]; simpl;
    rewrite ?orb_false_r; reflexivity.
Qed.

(** C2, as the code has it. A value matches exactly when it is not
    missing and, surrounding white space of the value and of the codes
    set aside, it equals an exact code or starts with a prefix; a missing
    value never matches. On values and codes without surrounding white
    space this is plain equality and plain prefix. The examples of the
    specification hold. *)
Theorem naics_mask_matches_modulo_strip :
  (forall (exact prefixes : option (list string)) (v : cell),
      naics_mask1 exact prefixes v = true <->
      exists s, v = Some s /\
                ((exists e, In e (codes_of exact) /\ strip s = strip e) \/
                 (exists p, In p (codes_of prefixes) /\
                            exists rest, strip s = strip p ++ rest)))
  /\ (forall (exact prefixes : option (list string)) (s : string),
         strip s = s ->
         (forall c, In c (codes_of exact) -> strip c = c) ->
         (forall c, In c (codes_of prefixes) -> strip c = c) ->
         (naics_mask1 exact prefixes (Some s) = true <->
          In s (codes_of exact) \/
          exists p, In p (codes_of prefixes) /\ exists rest, s = p ++ rest))
  /\ (forall naics exact prefixes,
         naics_mask naics exact prefixes = map (naics_mask1 exact prefixes) naics)
  /\ naics_mask [Some "54143"; Some "541430"; None] (Some ["54143"]) None
     = [true; false; false]
  /\ naics_mask [Some "811192"; Some "8111"; Some "81129"; None] None (Some ["8111"])
     = [true; true; false; false].
Proof.
  assert (Hmain : forall exact prefixes v,
             naics_mask1 exact prefixes v = true <->
             exists s, v = Some s /\
                       ((exists e, In e (codes_of exact) /\ strip s = strip e) \/
                        (exists p, In p (codes_of prefixes) /\
                                   exists rest, strip s = strip p ++ rest))).
  { intros exact prefixes v. rewrite naics_mask1_unfold. destruct v as [s|].
    - rewrite orb_true_iff, existsb_stripped_eq, existsb_stripped_prefix. split.
      + intros H. now exists s.
      + intros (s' & Hs & H). now injection Hs as <-.
    - split; [discriminate | intros (s & Hs & _); discriminate]. }
  split; [exact Hmain|]. split; [|split; [reflexivity | split; reflexivity]].
  intros exact prefixes s Hs He Hp. rewrite Hmain. split.
  - intros (s' & Heq & H). injection Heq as <-. rewrite Hs in H.
    destruct H as [(e & Hin & ->)|(p & Hin & rest & ->)].
    + left. now rewrite (He e Hin).
    + right. exists p. split; [assumption|]. exists rest. now rewrite (Hp p Hin).
  - intros [Hin|(p & Hin & rest & Heq)]; exists s; (split; [reflexivity|]).
    + left. exists s. now split.
    + right. exists p. split; [assumption|]. exists rest.
      now rewrite Hs, (Hp p Hin).
Qed.

Lemma naics_mask_matches_modulo_strip_witness :
  naics_mask1 (Some ["511210"]) (Some ["5415"]) (Some "541512") = true.
Proof.
  destruct naics_mask_matches_modulo_strip as (_ & H & _).
  apply (H (Some ["511210"]) (Some ["5415"]) "541512").
  - reflexivity.
  - intros c [<-|[]]. reflexivity.
  - intros c [<-|[]]. reflexivity.
  - right. exists "5415". split; [left; reflexivity|]. exists "12". reflexivity.
Defined.

(** C2 as stated fails: with the exact code 54143 a value with a leading
    blank matches, though it is not equal to the code and no prefix is
    given. *)
Lemma naics_mask_matches_padded_value :
  naics_mask [Some " 54143"] (Some ["54143"]) None = [true] /\
  ~ (In " 54143" (codes_of (Some ["54143"])) \/
     exists p, In p (codes_of None) /\ exists rest, " 54143" = p ++ rest).
Proof.
  split; [reflexivity|].
  intros [[H|[]]|(p & [] & _)]. discriminate H.
Qed.

(** [code_matches] of the load script takes one set for both roles, so a
    code matches as soon as it starts with a member; a missing value is
    matched as the empty string. *)
Lemma code_matches_is_prefix_match (codes : list string) (x : cell) :
  LoadCES.code_matches codes x = true <->
  exists c, In c codes /\
            exists rest, match x with Some v => v | None => EmptyString end = c ++ rest.
Proof.
  unfold LoadCES.code_matches. cbv zeta.
  set (s := match x with Some v => v | None => EmptyString end).
  rewrite orb_true_iff, existsb_eqb_In, existsb_exists. split.
  - intros [Hin|(c & Hin & Hp)].
    + exists s. split; [assumption|]. exists EmptyString. clear. induction s; simpl; congruence.
    + exists c. split; [assumption | now apply startswith_prefix].
  - intros (c & Hin & Hp). right. exists c.
    split; [assumption | now apply startswith_prefix].
Qed.

Lemma code_matches_examples :
  LoadCES.code_matches ["54143"] (Some "541430") = true /\
  LoadCES.code_matches ["8111"] (Some "81129") = false /\
  LoadCES.code_matches ["8111"] None = false /\
  LoadCES.code_matches [EmptyString] None = true.
Proof. repeat split; reflexivity. Qed.

End Matcher.

(** ** Period codes and dates *)

Lemma Zrange_In (lo : Z) (n : nat) (z : Z) :
  lo <= z < lo + Z.of_nat n -> In z (Zrange lo n).
Proof.
  intros H. unfold Zrange. apply in_map_iff. exists (Z.to_nat (z - lo)).
  split; [lia|]. apply in_seq. lia.
Qed.

Lemma monthly_codes_month_code : monthly_codes = map month_code (Zrange 1 12).
Proof. reflexivity. Qed.

(** Over the years a nanosecond Timestamp covers in full, both date
    functions send the code of month [m] to the first day of month [m]. *)
Lemma first_of_month_all_years :
  forallb (fun y => forallb (fun m => first_of_month_load y m && first_of_month_prep y m)
                            (Zrange 1 12))
          (Zrange 1678 584) = true.
Proof. vm_compute. reflexivity. Qed.

(** X23. For a year from 1678 to 2261 and a month from 1 to 12, both date
    functions turn the period code of the month into the first day of that
    month of that year, and neither raises. *)
Lemma monthly_code_first_of_month (y m : Z) :
  1678 <= y <= 2261 -> 1 <= m <= 12 ->
  LoadCES.make_monthly_date [Some (py_str y)] [Some (month_code m)]
  = OK [Some (mkTimestamp y m 1)] /\
  PrepCES.make_date [y] [Some (month_code m)] = OK [mkTimestamp y m 1].
Proof.
  intros Hy Hm.
  pose proof first_of_month_all_years as H.
  rewrite forallb_forall in H.
  assert (Hiy : In y (Zrange 1678 584)) by (apply Zrange_In; lia).
  specialize (H y Hiy). rewrite forallb_forall in H.
  assert (Him : In m (Zrange 1 12)) by (apply Zrange_In; lia).
  specialize (H m Him). apply andb_true_iff in H. destruct H as [H1 H2].
  unfold first_of_month_load in H1. unfold first_of_month_prep in H2.
  split.
  - destruct (LoadCES.make_monthly_date _ _) as [[|[t|] [|? ?]]|]; try discriminate.
    destruct t as [ty tm td]. simpl in H1.
    apply andb_true_iff in H1. destruct H1 as [H1 Hd].
    apply andb_true_iff in H1. destruct H1 as [Hyy Hmm].
    apply Z.eqb_eq in Hyy, Hmm, Hd. now subst.
  - destruct (PrepCES.make_date _ _) as [[|t [|? ?]]|]; try discriminate.
    destruct t as [ty tm td]. simpl in H2.
    apply andb_true_iff in H2. destruct H2 as [H2 Hd].
    apply andb_true_iff in H2. destruct H2 as [Hyy Hmm].
    apply Z.eqb_eq in Hyy, Hmm, Hd. now subst.
Qed.

(** The date functions called on codes the monthly filter does not admit:
    when the text after the M is not an integer the conversion raises
    before any date is built; the code M13 gives a missing date in the load
    script and raises in the prep script. *)
Lemma make_monthly_date_raises_on_malformed_period :
  LoadCES.make_monthly_date [Some "2020"] [Some "Q01"]
  = Raise (ValueError "invalid literal for int() with base 10")
  /\ PrepCES.make_date [2020] [Some "Q01"]
     = Raise (ValueError "invalid literal for int() with base 10")
  /\ LoadCES.make_monthly_date [Some "2020"] [Some "M13"] = OK [None]
  /\ PrepCES.make_date [2020] [Some "M13"]
     = Raise (ValueError "time data does not match format")
  /\ LoadCES.make_monthly_date [Some "2020"; Some "2020"] [Some "M01"; Some "M12"]
     = OK [Some (mkTimestamp 2020 1 1); Some (mkTimestamp 2020 12 1)].
Proof. repeat split; reflexivity. Qed.

(** ** The monthly filter *)

Lemma in_range_1_9 (b : ascii) :
  in_range b "1" "9" = true ->
  In b ["1"; "2"; "3"; "4"; "5"; "6"; "7"; "8"; "9"]%char.
Proof.
  destruct b as [[] [] [] [] [] [] [] []]; vm_compute; intros H;
    try discriminate H; repeat first [left; reflexivity | right].
Qed.

Lemma in_range_0_2 (b : ascii) :
  in_range b "0" "2" = true -> In b ["0"; "1"; "2"]%char.
Proof.
  destruct b as [[] [] [] [] [] [] [] []]; vm_compute; intros H;
    try discriminate H; repeat first [left; reflexivity | right].
Qed.

(** What the pattern admits: a monthly code, or a monthly code followed by
    one line feed. *)
Lemma match_monthly_cases (s : string) :
  match_monthly s = true ->
  In s monthly_codes \/ In s (map (fun c => c ++ LF) monthly_codes).
Proof.
  destruct s as [|c0 [|a [|b r]]]; try discriminate.
  - destruct c0 as [[] [] [] [] [] [] [] []]; discriminate.
  - destruct c0 as [[] [] [] [] [] [] [] []]; discriminate.
  - destruct c0 as [[] [] [] [] [] [] [] []]; try discriminate.
    cbn [match_monthly]. intros H.
    apply andb_true_iff in H. destruct H as [Hab Hr].
    assert (Er : r = EmptyString \/ r = LF).
    { apply orb_true_iff in Hr. destruct Hr as [Hr|Hr]; apply String.eqb_eq in Hr; auto. }
    apply orb_true_iff in Hab.
    destruct Hab as [Hab|Hab]; apply andb_true_iff in Hab; destruct Hab as [Ha Hb];
      apply Ascii.eqb_eq in Ha; subst a;
      [apply in_range_1_9 in Hb | apply in_range_0_2 in Hb];
      simpl in Hb;
      repeat match goal with
      | H : _ \/ _ |- _ => destruct H as [H|H]
      | H : False |- _ => destruct H
      end; subst; vm_compute; tauto.
Qed.

Lemma month_of_monthly (p : cell) :
  period_is_monthly p = true -> exists m, month_of p = OK m /\ 1 <= m <= 12.
Proof.
  destruct p as [s|]; [|discriminate]. simpl. intros H.
  apply match_monthly_cases in H. simpl in H.
  repeat match goal with
  | H : _ \/ _ |- _ => destruct H as [H|H]
  | H : False |- _ => destruct H
  end; subst; vm_compute; eexists; (split; [reflexivity|]); split; discriminate.
Qed.

Lemma mapM_total {A B : Type} (f : A -> result B) (l : list A) :
  (forall a, In a l -> exists b, f a = OK b) ->
  exists bs, mapM f l = OK bs /\ List.length bs = List.length l.
Proof.
  induction l as [|a l IH]; intros H; simpl.
  - now exists [].
  - destruct (H a (or_introl eq_refl)) as [b ->].
    destruct IH as (bs & -> & Hlen); [intros x Hx; apply H; now right|].
    exists (b :: bs). simpl. now rewrite Hlen.
Qed.

Lemma rstrip_last_not_space (s : string) :
  match last_char (rstrip s) with
  | Some c => isspace c = false
  | None => True
  end.
Proof.
  induction s as [|c s IH]; simpl; [exact I|].
  destruct (rstrip s) as [|d r] eqn:E.
  - destruct (isspace c) eqn:Ec; simpl; [exact I | exact Ec].
  - exact IH.
Qed.

(** A stripped string that passes the filter is one of the twelve codes. *)
Lemma match_monthly_stripped (s : string) :
  match_monthly (strip s) = true -> In (strip s) monthly_codes.
Proof.
  intros H. apply match_monthly_cases in H. destruct H as [H|H]; [exact H|].
  exfalso. pose proof (rstrip_last_not_space (lstrip s)) as Hl.
  fold (strip s) in Hl. simpl in H.
  repeat match goal with
  | H : _ \/ _ |- _ => destruct H as [H|H]
  | H : False |- _ => destruct H
  end; rewrite <- H in Hl; vm_compute in Hl; discriminate Hl.
Qed.

Module Extractor.

Import LoadCES.

Section WithNumeric.

Variable to_numeric : string -> float64.

Lemma join_dict_period (data : list ObsRow) (series_dict : list DictRow) (r : Joined) :
  In r (join_dict to_numeric data series_dict) ->
  exists o, In o data /\ j_period r = o_period o.
Proof.
  unfold join_dict, merge_left. intros H. apply in_flat_map in H.
  destruct H as (o & Ho & Hr). exists o. split; [assumption|].
  destruct (filter _ series_dict) as [|x xs].
  - destruct Hr as [<-|[]]. reflexivity.
  - apply in_map_iff in Hr. destruct Hr as (y & <- & _). reflexivity.
Qed.

(** The rows that reach the date step all carry a period the filter
    admitted. *)
Lemma selected_rows_monthly (tables : Tables) (series_dict : list DictRow)
    (pred : cell -> bool) (whitelist : list string) (seasonal_filter : option string)
    (r : Joined) :
  In r (match seasonal_filter with
        | Some v => filter (fun r => cell_eqb (j_seasonal r) (Some v))
                      (filter (fun r => isin whitelist (j_datatype_text r))
                         (filter (fun r => pred (j_industry_code r))
                            (join_dict to_numeric
                               (filter (fun o => period_is_monthly (o_period o))
                                       (data tables))
                               series_dict)))
        | None => filter (fun r => isin whitelist (j_datatype_text r))
                    (filter (fun r => pred (j_industry_code r))
                       (join_dict to_numeric
                          (filter (fun o => period_is_monthly (o_period o))
                                  (data tables))
                          series_dict))
        end) ->
  period_is_monthly (j_period r) = true.
Proof.
  intros H.
  assert (Hj : In r (join_dict to_numeric
                       (filter (fun o => period_is_monthly (o_period o)) (data tables))
                       series_dict)).
  { destruct seasonal_filter;
      repeat (apply filter_In in H; destruct H as [H _]); exact H. }
  apply join_dict_period in Hj. destruct Hj as (o & Ho & ->).
  apply filter_In in Ho. exact (proj2 Ho).
Qed.

(** The extraction returns a table on every input, and every row of it
    carries a period the filter admitted: a monthly code, possibly
    followed by a line feed. *)
Lemma extract_proxy_dataset_periods (tables : Tables) (series_dict : list DictRow)
    (pred : cell -> bool) (whitelist : list string) (seasonal_filter : option string) :
  exists out,
    extract_proxy_dataset to_numeric tables series_dict pred whitelist seasonal_filter
    = OK out /\
    forall row, In row out ->
      exists s, j_period (obs row) = Some s /\
                (In s monthly_codes \/ In s (map (fun c => c ++ LF) monthly_codes)).
Proof.
  unfold extract_proxy_dataset. cbv zeta.
  match goal with
  | |- context [make_monthly_date (map j_year ?d) _] => set (df := d)
  end.
  assert (Hdf : forall r, In r df -> period_is_monthly (j_period r) = true)
    by (intros r; apply selected_rows_monthly).
  unfold make_monthly_date.
  destruct (@mapM_total _ _ month_of (map j_period df)) as (ms & Hms & _).
  { intros p Hp. apply in_map_iff in Hp. destruct Hp as (r & <- & Hr).
    destruct (month_of_monthly _ (Hdf r Hr)) as (m & Hm & _). now exists m. }
  rewrite Hms. cbn [bind]. eexists. split; [reflexivity|].
  intros row Hrow.
  apply (Permutation_in _ (Permutation_sym (sort_values_perm _ _))) in Hrow.
  apply in_map_iff in Hrow. destruct Hrow as ([d r] & <- & Hin).
  apply in_combine_r in Hin. cbn [obs snd].
  specialize (Hdf r Hin). destruct (j_period r) as [s|]; [|discriminate].
  exists s. split; [reflexivity | now apply match_monthly_cases].
Qed.

End WithNumeric.

(** In the prep script the period column is stripped before the filter,
    and every row kept carries one of the twelve codes. *)
Lemma monthly_only_periods (data : list ObsRow) (o : ObsRow) :
  In o (PrepCES.monthly_only data) ->
  exists c, In c monthly_codes /\ o_period o = Some c.
Proof.
  unfold PrepCES.monthly_only. intros H. apply filter_In in H. destruct H as [Hin Hm].
  apply in_map_iff in Hin. destruct Hin as (o' & <- & _).
  unfold PrepCES.strip_keys in *. cbn [o_period] in *.
  destruct (o_period o') as [s|]; [|discriminate]. simpl in *.
  exists (strip s). split; [now apply match_monthly_stripped | reflexivity].
Qed.

(** C8 fails in the load script on a period that is a monthly code
    followed by a line feed: the pattern admits it, the row reaches the
    extracted table with that period, and the period is not one of the
    twelve codes. The prep script strips the period first and keeps the
    row under the code M01. *)
Theorem newline_period_reaches_extracted_output :
  forall to_numeric : string -> float64,
    exists row,
      main to_numeric newline_period_tables = OK ([row], [], []) /\
      j_period (obs row) = Some ("M01" ++ LF) /\
      date row = Some jan20 /\
      ~ In ("M01" ++ LF) monthly_codes /\
      map o_period (PrepCES.monthly_only (data newline_period_tables)) = [Some "M01"].
Proof.
  intros to_numeric. eexists. split; [vm_compute; reflexivity|].
  repeat split.
  vm_compute. intros H.
  repeat match goal with
  | H : _ \/ _ |- _ => destruct H as [H|H]
  | H : False |- _ => destruct H
  end; discriminate H.
Qed.

End Extractor.

(** ** The series dictionary *)

Lemma series_dict_rows (series : list PrepCES.SeriesRow) (industry : list PrepCES.IndustryRow)
    (datatype : list PrepCES.DatatypeRow) :
  NoDup (map PrepCES.ir_industry_code industry) ->
  NoDup (map PrepCES.dr_datatype_code datatype) ->
  map PrepCES.d_series (PrepCES.series_dict series industry datatype) = series /\
  (forall r, In r (PrepCES.series_dict series industry datatype) ->
             ~ In (PrepCES.sr_industry_code (PrepCES.d_series r))
                  (map PrepCES.ir_industry_code industry) ->
             PrepCES.d_industry_name r = None /\ PrepCES.d_naics_code r = None) /\
  (forall r, In r (PrepCES.series_dict series industry datatype) ->
             ~ In (PrepCES.sr_datatype_code (PrepCES.d_series r))
                  (map PrepCES.dr_datatype_code datatype) ->
             PrepCES.d_datatype_text r = None).
Proof.
  intros Ni Nd. unfold PrepCES.series_dict.
  rewrite (@merge_left_unique _ _ _ _ cell_eqb _ PrepCES.ir_industry_code _ cell_eqb_eq)
    by assumption.
  rewrite (@merge_left_unique _ _ _ _ cell_eqb _ PrepCES.dr_datatype_code _ cell_eqb_eq)
    by assumption.
  rewrite !map_map. cbn [fst snd PrepCES.d_series]. split; [apply map_id|]. split.
  - intros r Hr Hn. apply in_map_iff in Hr. destruct Hr as (srow & <- & _).
    cbn in Hn |- *.
    rewrite (@find_key_none _ _ cell_eqb _ cell_eqb_eq) by assumption. now split.
  - intros r Hr Hn. apply in_map_iff in Hr. destruct Hr as (srow & <- & _).
    cbn in Hn |- *.
    now rewrite (@find_key_none _ _ cell_eqb _ cell_eqb_eq) by assumption.
Qed.

(** C6. With reference tables keyed uniquely by their codes, the dictionary
    has one row per row of the series table, in the same order and with the
    same series columns; a series whose industry code or datatype code no
    reference row carries is kept, with a missing industry name or a missing
    datatype text. This holds for [build_dictionary] of the load script,
    which returns a dictionary whenever its columns resolve, and for the
    dictionary of the prep script. *)
Theorem dictionary_one_row_per_series :
  forall (tables : LoadCES.Tables) (series : list PrepCES.SeriesRow)
         (industry : list PrepCES.IndustryRow) (datatype : list PrepCES.DatatypeRow),
    LoadCES.keyed_uniquely (LoadCES.normalize (LoadCES.industry tables))
      ["industry_code"; "industry"; "industry_cd"] ->
    LoadCES.keyed_uniquely (LoadCES.normalize (LoadCES.datatype tables))
      ["data_type_code"; "data_type"; "data_type_cd"] ->
    Forall LoadCES.lookup_succeeds (LoadCES.lookups tables) ->
    In "seasonal" (LoadCES.columns (LoadCES.normalize (LoadCES.series tables))) ->
    NoDup (map PrepCES.ir_industry_code industry) ->
    NoDup (map PrepCES.dr_datatype_code datatype) ->
    (exists dict,
        LoadCES.build_dictionary tables = OK dict /\
        List.length dict = List.length (LoadCES.rows (LoadCES.series tables)) /\
        LoadCES.dictionary_of (LoadCES.normalize (LoadCES.series tables))
                           (LoadCES.normalize (LoadCES.industry tables))
                           (LoadCES.normalize (LoadCES.datatype tables)) dict)
    /\ List.length (PrepCES.series_dict series industry datatype) = List.length series
    /\ map PrepCES.d_series (PrepCES.series_dict series industry datatype) = series
    /\ (forall r, In r (PrepCES.series_dict series industry datatype) ->
                  ~ In (PrepCES.sr_industry_code (PrepCES.d_series r))
                       (map PrepCES.ir_industry_code industry) ->
                  PrepCES.d_industry_name r = None /\ PrepCES.d_naics_code r = None)
    /\ (forall r, In r (PrepCES.series_dict series industry datatype) ->
                  ~ In (PrepCES.sr_datatype_code (PrepCES.d_series r))
                       (map PrepCES.dr_datatype_code datatype) ->
                  PrepCES.d_datatype_text r = None).
Proof.
  intros tables series industry datatype Ui Ud Hall Hseas Ni Nd.
  split.
  - destruct (@LoadFacts.build_dictionary_rows tables Ui Ud Hall Hseas) as (dict & Hb & Hd).
    exists dict. split; [assumption|]. split; [|assumption].
    exact (LoadCES.dict_length Hd).
  - destruct (@series_dict_rows series industry datatype Ni Nd) as (Hs & Hi & Hd).
    split; [|split; [exact Hs | split; [exact Hi | exact Hd]]].
    rewrite <- Hs at 2. now rewrite length_map.
Qed.

Lemma dictionary_one_row_per_series_witness :
  (exists dict,
      LoadCES.build_dictionary newline_period_tables = OK dict /\
      List.length dict = 1%nat) /\
  List.length (PrepCES.series_dict orphan_series one_industry two_datatypes) = 2%nat.
Proof.
  assert (Ui : LoadCES.keyed_uniquely (LoadCES.normalize (LoadCES.industry newline_period_tables))
                 ["industry_code"; "industry"; "industry_cd"]).
  { intros c H. vm_compute in H. injection H as <-. vm_compute. repeat constructor.
    intros []. }
  assert (Ud : LoadCES.keyed_uniquely (LoadCES.normalize (LoadCES.datatype newline_period_tables))
                 ["data_type_code"; "data_type"; "data_type_cd"]).
  { intros c H. vm_compute in H. injection H as <-. vm_compute. repeat constructor.
    intros []. }
  assert (Hall : Forall LoadCES.lookup_succeeds (LoadCES.lookups newline_period_tables)).
  { repeat constructor; eexists; vm_compute; reflexivity. }
  assert (Hseas : In "seasonal"
                     (LoadCES.columns (LoadCES.normalize (LoadCES.series newline_period_tables)))).
  { vm_compute. tauto. }
  assert (Ni : NoDup (map PrepCES.ir_industry_code one_industry)).
  { vm_compute. repeat constructor. intros []. }
  assert (Nd : NoDup (map PrepCES.dr_datatype_code two_datatypes)).
  { vm_compute. repeat constructor; simpl; intros H; [|exact H].
    destruct H as [H|[]]. discriminate H. }
  destruct (@dictionary_one_row_per_series newline_period_tables orphan_series
              one_industry two_datatypes Ui Ud Hall Hseas Ni Nd)
    as ((dict & Hb & Hlen & _) & Hp & _).
  split; [exists dict; split; [exact Hb | exact Hlen] | exact Hp].
Defined.

(** The orphan series of the example is kept, without name or text of the
    industry. *)
Lemma orphan_series_kept :
  map (fun r => (PrepCES.sr_series_id (PrepCES.d_series r), PrepCES.d_industry_name r))
      (PrepCES.series_dict orphan_series one_industry two_datatypes)
  = [ (Some "CEU8081110001", Some "Automotive repair and maintenance");
      (Some "CEU9999999903", None) ].
Proof. reflexivity. Qed.

Lemma find_col_first_candidate_or_fatal_witness :
  exists l,
    In l (LoadCES.lookups unresolvable_tables) /\
    LoadCES.main (fun _ => NaN) unresolvable_tables
    = Raise (KeyError (snd l) (LoadCES.columns (fst l))).
Proof.
  assert (Hex : Exists LoadCES.lookup_fails (LoadCES.lookups unresolvable_tables)).
  { apply Exists_cons_tl, Exists_cons_tl, Exists_cons_tl, Exists_cons_hd.
    eexists. vm_compute. reflexivity. }
  destruct (proj2 LoadFacts.find_col_first_candidate_or_fatal (fun _ => NaN)
              unresolvable_tables Hex) as (l & Hin & _ & Hm).
  exists l. split; [exact Hin | exact Hm].
Defined.

(** * Further properties of the code *)

(** ** Sorting *)

Section SortTotal.

Variable A : Type.
Variable leb : A -> A -> bool.
Hypothesis leb_total : forall a b, leb a b = true \/ leb b a = true.

Lemma insert_sorted_head (x : A) (l : list A) (z : A) :
  leb z x = true -> HdRel (fun a b => leb a b = true) z l ->
  HdRel (fun a b => leb a b = true) z (insert_sorted leb x l).
Proof.
  intros Hzx Hl. destruct l as [|y l]; simpl.
  - now constructor.
  - inversion Hl; subst. destruct (leb y x); now constructor.
Qed.

Lemma insert_sorted_Sorted (x : A) (l : list A) :
  Sorted (fun a b => leb a b = true) l ->
  Sorted (fun a b => leb a b = true) (insert_sorted leb x l).
Proof.
  induction 1 as [|y l Hs IH Hhd]; simpl.
  - repeat constructor.
  - destruct (leb y x) eqn:E.
    + constructor; [exact IH | now apply insert_sorted_head].
    + constructor; [now constructor|]. constructor.
      destruct (leb_total x y) as [H|H]; [exact H | congruence].
Qed.

(** Under a total comparison [sort_values] puts every row before the next
    one in the order. *)
Lemma sort_values_Sorted (l : list A) :
  Sorted (fun a b => leb a b = true) (sort_values leb l).
Proof.
  induction l as [|x l IH] using rev_ind; [constructor|].
  rewrite sort_values_snoc. now apply insert_sorted_Sorted.
Qed.

End SortTotal.

Lemma cmp_na_last_antisym {A : Type} (cmp : A -> A -> comparison) :
  (forall a b, cmp b a = CompOpp (cmp a b)) ->
  forall a b, cmp_na_last cmp b a = CompOpp (cmp_na_last cmp a b).
Proof. intros H [a|] [b|]; simpl; auto. Qed.

Lemma string_compare_flip (a b : string) :
  String.compare b a = CompOpp (String.compare a b).
Proof. apply String.compare_antisym. Qed.

Lemma sort_key_le_total (a b : LoadCES.ProxyRow) :
  LoadCES.sort_key_le a b = true \/ LoadCES.sort_key_le b a = true.
Proof.
  unfold LoadCES.sort_key_le.
  rewrite (cmp_na_last_antisym String.compare string_compare_flip
             (LoadCES.j_datatype_text (LoadCES.obs a))),
          (cmp_na_last_antisym String.compare string_compare_flip
             (LoadCES.j_industry_code (LoadCES.obs a))),
          (cmp_na_last_antisym ts_compare ts_compare_antisym (LoadCES.date a)).
  destruct (cmp_na_last String.compare (LoadCES.j_datatype_text (LoadCES.obs a)) _),
           (cmp_na_last String.compare (LoadCES.j_industry_code (LoadCES.obs a)) _),
           (cmp_na_last ts_compare (LoadCES.date a) _); simpl; auto.
Qed.

(** ** The extraction of the load script *)

Lemma first_of_month_entries :
  forallb (fun y => forallb (first_of_month_entry y) (Zrange 1 12)) (Zrange 1678 584) = true.
Proof. vm_compute. reflexivity. Qed.

Lemma to_datetime_first_of_month (y m : Z) :
  1678 <= y <= 2261 -> 1 <= m <= 12 ->
  LoadCES.to_datetime_coerce (py_str y ++ "-" ++ zfill2 (py_str m) ++ "-01")
  = Some (mkTimestamp y m 1).
Proof.
  intros Hy Hm. pose proof first_of_month_entries as H.
  rewrite forallb_forall in H.
  assert (Hiy : In y (Zrange 1678 584)) by (apply Zrange_In; lia).
  specialize (H y Hiy).
  rewrite forallb_forall in H.
  assert (Him : In m (Zrange 1 12)) by (apply Zrange_In; lia).
  specialize (H m Him).
  unfold first_of_month_entry in H.
  destruct (LoadCES.to_datetime_coerce _) as [[ty tm td]|]; [|discriminate].
  simpl in H. apply andb_true_iff in H. destruct H as [H Hd].
  apply andb_true_iff in H. destruct H as [Hyy Hmm].
  apply Z.eqb_eq in Hyy, Hmm, Hd. now subst.
Qed.

Lemma month_of_codes (m : Z) :
  1 <= m <= 12 ->
  month_of (Some (month_code m)) = OK m /\ month_of (Some (month_code m ++ LF)) = OK m.
Proof.
  intros H.
  assert (C : m = 1 \/ m = 2 \/ m = 3 \/ m = 4 \/ m = 5 \/ m = 6 \/
              m = 7 \/ m = 8 \/ m = 9 \/ m = 10 \/ m = 11 \/ m = 12) by lia.
  repeat (destruct C as [->|C]; [split; reflexivity|]). subst. split; reflexivity.
Qed.

(** A period the filter admits is the code of a month, possibly followed by
    a line feed. *)
Lemma period_is_monthly_month (p : cell) :
  period_is_monthly p = true ->
  exists m, 1 <= m <= 12 /\
            (p = Some (month_code m) \/ p = Some (month_code m ++ LF)).
Proof.
  destruct p as [s|]; [|discriminate]. simpl. intros H.
  apply match_monthly_cases in H. rewrite monthly_codes_month_code, map_map in H.
  destruct H as [H|H]; apply in_map_iff in H; destruct H as (m & <- & Hm);
    exists m; (split; [|auto]);
    unfold Zrange in Hm; apply in_map_iff in Hm; destruct Hm as (i & <- & Hi);
    apply in_seq in Hi; lia.
Qed.

(** Whatever period the filter of the load script admits, the date step
    raises nothing and, for a year from 1678 to 2261, gives the first day
    of the month the period begins with: after a line feed too. *)
Lemma admitted_period_is_dated (p : cell) (y : Z) :
  period_is_monthly p = true -> 1678 <= y <= 2261 ->
  exists m, 1 <= m <= 12 /\
            (p = Some (month_code m) \/ p = Some (month_code m ++ LF)) /\
            LoadCES.make_monthly_date [Some (py_str y)] [p]
            = OK [Some (mkTimestamp y m 1)].
Proof.
  intros Hp Hy. destruct (period_is_monthly_month _ Hp) as (m & Hm & Hc).
  exists m. split; [assumption|]. split; [assumption|].
  assert (Em : month_of p = OK m).
  { destruct (month_of_codes Hm) as [E1 E2]. destruct Hc as [-> | ->]; assumption. }
  unfold LoadCES.make_monthly_date. cbn [mapM]. rewrite Em.
  cbn [bind combine map fst snd LoadCES.astype_str].
  now rewrite to_datetime_first_of_month.
Qed.

(** C7 fails in the load script on a period that is a monthly code followed
    by a line feed. The code is none of the twelve, the monthly filter
    admits it, and the date step gives the row the first day of the month
    instead of a missing date; no exception is raised. This holds for each
    of the twelve codes followed by a line feed. *)
Theorem line_feed_period_is_dated_not_null :
  period_is_monthly (Some ("M01" ++ LF)) = true /\
  ~ In ("M01" ++ LF) monthly_codes /\
  LoadCES.make_monthly_date [Some "2020"] [Some ("M01" ++ LF)]
  = OK [Some (mkTimestamp 2020 1 1)] /\
  forallb (fun c => period_is_monthly (Some (c ++ LF))
                    && negb (existsb (String.eqb (c ++ LF)) monthly_codes))
          monthly_codes = true /\
  map (fun c => LoadCES.make_monthly_date [Some "2020"] [Some (c ++ LF)]) monthly_codes
  = map (fun m => OK [Some (mkTimestamp 2020 m 1)]) (Zrange 1 12).
Proof.
  split; [reflexivity|]. split.
  - vm_compute. intros H.
    repeat match goal with
    | H : _ \/ _ |- _ => destruct H as [H|H]
    | H : False |- _ => destruct H
    end; discriminate H.
  - split; [reflexivity|]. split; vm_compute; reflexivity.
Qed.

Module ExtractionFacts.

Import LoadCES.

Lemma combine_map_self {A B C : Type} (f : A -> B) (g : B -> A -> C) (l : list A) :
  map (fun p => g (fst p) (snd p)) (combine (map f l) l) = map (fun a => g (f a) a) l.
Proof. induction l as [|a l IH]; simpl; [reflexivity | now rewrite IH]. Qed.

(** On rows whose periods the filter admitted, [make_monthly_date] raises
    nothing and dates each row by its own year and period. *)
Lemma make_monthly_date_rows (df : list Joined) :
  (forall r, In r df -> period_is_monthly (j_period r) = true) ->
  make_monthly_date (map j_year df) (map j_period df) = OK (map row_date df).
Proof.
  intros H. unfold make_monthly_date.
  assert (Hm : exists ms,
             mapM month_of (map j_period df) = OK ms /\
             map (fun ym => to_datetime_coerce
                              (astype_str (fst ym) ++ "-" ++ zfill2 (py_str (snd ym)) ++ "-01"))
                 (combine (map j_year df) ms)
             = map row_date df).
  { induction df as [|r df IH]; cbn [map mapM].
    - now exists [].
    - destruct (period_is_monthly_month _ (H r (or_introl eq_refl))) as (m & Hm & Hp).
      assert (Em : month_of (j_period r) = OK m).
      { destruct (month_of_codes Hm) as [E1 E2]. destruct Hp as [->| ->]; assumption. }
      destruct IH as (ms & -> & Hms); [intros x Hx; apply H; now right|].
      rewrite Em. cbn [bind]. exists (m :: ms). split; [reflexivity|].
      cbn [combine map fst snd]. rewrite Hms. f_equal.
      unfold row_date. now rewrite Em. }
  destruct Hm as (ms & -> & Hms). cbn [bind]. now rewrite Hms.
Qed.

Section WithNumeric.

Variable to_numeric : string -> float64.

(** The extracted table is the selected rows, each with its date, sorted. *)
Lemma extract_proxy_dataset_rows (tables : Tables) (series_dict : list DictRow)
    (pred : cell -> bool) (whitelist : list string) (seasonal_filter : option string) :
  extract_proxy_dataset to_numeric tables series_dict pred whitelist seasonal_filter
  = OK (sort_values sort_key_le
          (map (fun r => mkProxyRow (row_date r) r)
               (selected_rows to_numeric tables series_dict pred whitelist
                              seasonal_filter))).
Proof.
  unfold extract_proxy_dataset, selected_rows. cbv zeta.
  match goal with
  | |- context [make_monthly_date (map j_year ?d) _] => set (df := d)
  end.
  rewrite make_monthly_date_rows
    by (intros r; apply (Extractor.selected_rows_monthly to_numeric)).
  cbn [bind]. f_equal. f_equal.
  exact (combine_map_self row_date mkProxyRow df).
Qed.

Lemma selected_rows_In (tables : Tables) (series_dict : list DictRow)
    (pred : cell -> bool) (whitelist : list string) (seasonal_filter : option string)
    (r : Joined) :
  In r (selected_rows to_numeric tables series_dict pred whitelist seasonal_filter) <->
  In r (join_dict to_numeric
          (filter (fun o => period_is_monthly (o_period o)) (data tables)) series_dict)
  /\ passes_filters pred whitelist seasonal_filter r.
Proof.
  unfold selected_rows, passes_filters. cbv zeta.
  destruct seasonal_filter as [v|]; rewrite !filter_In.
  - rewrite cell_eqb_eq. split.
    + intros [[[Hj Hp] Hw] Hs]. repeat split; try assumption.
      intros v' Hv. now injection Hv as <-.
    + intros [Hj [Hp [Hw Hs]]]. repeat split; try assumption. now apply Hs.
  - split.
    + intros [[Hj Hp] Hw]. repeat split; try assumption. discriminate.
    + intros [Hj [Hp [Hw _]]]. now repeat split.
Qed.

(** X1. The extraction returns a table on every input. Its rows are exactly
    the monthly observations, joined with the dictionary, that pass the
    industry predicate, the measure whitelist and the seasonal filter when
    one is given, each dated from its own year and period; no row is added,
    dropped or repeated beyond that. *)
Theorem extract_proxy_dataset_selects :
  forall (tables : Tables) (series_dict : list DictRow) (pred : cell -> bool)
         (whitelist : list string) (seasonal_filter : option string),
    exists out,
      extract_proxy_dataset to_numeric tables series_dict pred whitelist seasonal_filter
      = OK out /\
      Permutation out
        (map (fun r => mkProxyRow (row_date r) r)
             (selected_rows to_numeric tables series_dict pred whitelist seasonal_filter)) /\
      (forall row, In row out <->
         In (obs row)
            (join_dict to_numeric
               (filter (fun o => period_is_monthly (o_period o)) (data tables))
               series_dict) /\
         passes_filters pred whitelist seasonal_filter (obs row) /\
         date row = row_date (obs row)).
Proof.
  intros. eexists. split; [apply extract_proxy_dataset_rows|].
  assert (P : Permutation
                (sort_values sort_key_le
                   (map (fun r => mkProxyRow (row_date r) r)
                        (selected_rows to_numeric tables series_dict pred whitelist
                                       seasonal_filter)))
                (map (fun r => mkProxyRow (row_date r) r)
                     (selected_rows to_numeric tables series_dict pred whitelist
                                    seasonal_filter)))
    by (apply Permutation_sym, sort_values_perm).
  split; [exact P|]. intros row. split.
  - intros H. apply (Permutation_in _ P) in H. apply in_map_iff in H.
    destruct H as (r & <- & Hr). apply selected_rows_In in Hr. cbn [obs date].
    destruct Hr as [Hj Hf]. split; [exact Hj | split; [exact Hf | reflexivity]].
  - intros (Hj & Hf & Hd). apply (Permutation_in _ (Permutation_sym P)).
    apply in_map_iff. exists (obs row). split.
    + destruct row as [d r]. cbn [obs date] in *. now rewrite Hd.
    + apply selected_rows_In. now split.
Qed.

(** X2. The extracted table is in the order of its sort keys: each row is
    at most the next one by datatype text, then industry code, then date,
    missing values last. *)
Theorem extract_proxy_dataset_sorted :
  forall (tables : Tables) (series_dict : list DictRow) (pred : cell -> bool)
         (whitelist : list string) (seasonal_filter : option string),
    exists out,
      extract_proxy_dataset to_numeric tables series_dict pred whitelist seasonal_filter
      = OK out /\
      Sorted (fun a b => sort_key_le a b = true) out.
Proof.
  intros. eexists. split; [apply extract_proxy_dataset_rows|].
  apply sort_values_Sorted. exact sort_key_le_total.
Qed.

Lemma join_dict_row (data : list ObsRow) (series_dict : list DictRow) (r : Joined) :
  In r (join_dict to_numeric data series_dict) ->
  exists o, In o data /\
            j_series_id r = o_series_id o /\ j_year r = o_year o /\
            j_period r = o_period o /\
            (j_datatype_text r = None \/
             exists x, In x series_dict /\ series_id x = o_series_id o /\
                       j_datatype_text r = datatype_text x /\
                       j_industry_code r = industry_code x /\
                       j_seasonal r = seasonal x).
Proof.
  unfold join_dict, merge_left. intros H. apply in_flat_map in H.
  destruct H as (o & Ho & Hr). exists o. split; [assumption|].
  destruct (filter _ series_dict) as [|x xs] eqn:E.
  - destruct Hr as [<-|[]]. cbn. repeat split. now left.
  - apply in_map_iff in Hr. destruct Hr as (y & <- & Hy). cbn. repeat split.
    right. exists y. rewrite <- E in Hy. apply filter_In in Hy.
    destruct Hy as [Hin Hk]. apply cell_eqb_eq in Hk. now repeat split.
Qed.

(** X3. Though the observations are left-joined to the dictionary, an
    observation whose series the dictionary does not list never reaches the
    extracted table: every extracted row carries a series id of the
    dictionary and a datatype text of the whitelist. *)
Theorem extracted_rows_have_dictionary_entry :
  forall (tables : Tables) (series_dict : list DictRow) (pred : cell -> bool)
         (whitelist : list string) (seasonal_filter : option string),
    exists out,
      extract_proxy_dataset to_numeric tables series_dict pred whitelist seasonal_filter
      = OK out /\
      forall row, In row out ->
        In (j_series_id (obs row)) (map series_id series_dict) /\
        exists t, j_datatype_text (obs row) = Some t /\ In t whitelist.
Proof.
  intros. eexists. split; [apply extract_proxy_dataset_rows|].
  intros row H.
  apply (Permutation_in _ (Permutation_sym (sort_values_perm _ _))) in H.
  apply in_map_iff in H. destruct H as (r & <- & Hr). cbn [obs].
  apply selected_rows_In in Hr. destruct Hr as [Hj (_ & Hw & _)].
  unfold isin in Hw. destruct (j_datatype_text r) as [t|] eqn:Et; [|discriminate].
  apply existsb_eqb_In in Hw. split; [|now exists t].
  apply join_dict_row in Hj. destruct Hj as (o & _ & Hs & _ & _ & [Hn|(x & Hx & Hk & _)]).
  - congruence.
  - rewrite Hs, <- Hk. now apply in_map.
Qed.

Lemma filter_length_le {A : Type} (p : A -> bool) (l : list A) :
  (List.length (filter p l) <= List.length l)%nat.
Proof.
  induction l as [|a l IH]; simpl; [lia|]. destruct (p a); simpl; lia.
Qed.

(** X4. With a dictionary that lists no series id twice, the extraction
    yields at most one row per monthly observation. *)
Theorem extract_proxy_dataset_row_bound :
  forall (tables : Tables) (series_dict : list DictRow) (pred : cell -> bool)
         (whitelist : list string) (seasonal_filter : option string),
    NoDup (map series_id series_dict) ->
    exists out,
      extract_proxy_dataset to_numeric tables series_dict pred whitelist seasonal_filter
      = OK out /\
      (List.length out
       <= List.length (filter (fun o => period_is_monthly (o_period o)) (data tables)))%nat.
Proof.
  intros tables series_dict pred whitelist seasonal_filter Hnd.
  eexists. split; [apply extract_proxy_dataset_rows|].
  rewrite <- (Permutation_length (sort_values_perm _ _)), length_map.
  unfold selected_rows. cbv zeta.
  set (monthly := filter (fun o => period_is_monthly (o_period o)) (data tables)).
  assert (Hj : List.length (join_dict to_numeric monthly series_dict)
               = List.length monthly).
  { unfold join_dict.
    rewrite (@merge_left_unique _ _ _ _ cell_eqb _ series_id _ cell_eqb_eq) by assumption.
    apply length_map. }
  rewrite <- Hj.
  destruct seasonal_filter;
    repeat (etransitivity; [apply filter_length_le|]); reflexivity.
Qed.

(** X5. Every extracted row whose year is a four-digit year a Timestamp
    covers in full is dated the first day of the month its period codes;
    the date is never missing for such a row. *)
Theorem extracted_dates_first_of_month :
  forall (tables : Tables) (series_dict : list DictRow) (pred : cell -> bool)
         (whitelist : list string) (seasonal_filter : option string),
    exists out,
      extract_proxy_dataset to_numeric tables series_dict pred whitelist seasonal_filter
      = OK out /\
      forall row y, In row out -> 1678 <= y <= 2261 ->
        j_year (obs row) = Some (py_str y) ->
        exists m, 1 <= m <= 12 /\
                  date row = Some (mkTimestamp y m 1) /\
                  (j_period (obs row) = Some (month_code m) \/
                   j_period (obs row) = Some (month_code m ++ LF)).
Proof.
  intros. eexists. split; [apply extract_proxy_dataset_rows|].
  intros row y H Hy Hyear.
  apply (Permutation_in _ (Permutation_sym (sort_values_perm _ _))) in H.
  apply in_map_iff in H. destruct H as (r & <- & Hr). cbn [obs date] in *.
  apply (Extractor.selected_rows_monthly to_numeric) in Hr.
  destruct (period_is_monthly_month _ Hr) as (m & Hm & Hp).
  exists m. split; [assumption|]. split; [|assumption].
  unfold row_date. rewrite Hyear.
  replace (month_of (j_period r)) with (@OK Z m).
  - now apply to_datetime_first_of_month.
  - destruct (month_of_codes Hm) as [E1 E2]. destruct Hp as [-> | ->]; auto.
Qed.

(** X6. Once [build_dictionary] has returned a dictionary and the
    observation table holds a monthly row, [main] raises nothing in its
    three extractions: it returns the three proxy tables, each the selected
    rows of its career, dated and sorted, whatever else the observations
    hold. The monthly row keeps the frame the industry predicate is taken on
    from being empty. *)
Theorem main_returns_tables_once_dictionary_built :
  forall (tables : Tables) (series_dict : list DictRow),
    build_dictionary tables = OK series_dict ->
    (exists o, In o (data tables) /\ period_is_monthly (o_period o) = true) ->
    main to_numeric tables
    = OK (sort_values sort_key_le
            (map (fun r => mkProxyRow (row_date r) r)
                 (selected_rows to_numeric tables series_dict
                    (code_matches mechanic_codes) measures None)),
          sort_values sort_key_le
            (map (fun r => mkProxyRow (row_date r) r)
                 (selected_rows to_numeric tables series_dict
                    (code_matches graphic_codes) measures None)),
          sort_values sort_key_le
            (map (fun r => mkProxyRow (row_date r) r)
                 (selected_rows to_numeric tables series_dict
                    (code_matches software_codes) measures None))).
Proof.
  intros tables series_dict H _. unfold main. rewrite H. cbn [bind].
  rewrite !extract_proxy_dataset_rows. reflexivity.
Qed.

End WithNumeric.

End ExtractionFacts.

(** ** When the dictionary can be built *)

Module DictionaryFacts.

Import LoadCES LoadFacts.

Lemma lookup_succeeds_or_fails (l : DataFrame * list string) :
  lookup_succeeds l \/ lookup_fails l.
Proof.
  unfold lookup_succeeds, lookup_fails.
  destruct (find_col (fst l) (snd l)) as [c|e]; [left | right]; eauto.
Qed.

Lemma all_succeed_or_one_fails (ls : list (DataFrame * list string)) :
  Forall lookup_succeeds ls \/ Exists lookup_fails ls.
Proof.
  induction ls as [|l ls [IH|IH]].
  - left. constructor.
  - destruct (lookup_succeeds_or_fails l) as [H|H].
    + left. now constructor.
    + right. now constructor.
  - right. now constructor.
Qed.

Lemma mem_false (c : string) (cols : list string) : ~ In c cols -> mem c cols = false.
Proof.
  intros H. destruct (mem c cols) eqn:E; [|reflexivity].
  apply mem_In in E. contradiction.
Qed.

Lemma build_dictionary_after_lookups (tables : Tables) :
  Forall lookup_succeeds (lookups tables) ->
  (In "seasonal" (columns (normalize (series tables))) ->
   exists dict, build_dictionary tables = OK dict) /\
  (~ In "seasonal" (columns (normalize (series tables))) ->
   build_dictionary tables = Raise (NotInIndex ["seasonal"])).
Proof.
  intros Hall. unfold lookups in Hall.
  repeat match goal with
  | H : Forall _ (_ :: _) |- _ => inversion H; clear H; subst
  | H : Forall _ [] |- _ => clear H
  | H : lookup_succeeds _ |- _ => destruct H as [? H]; cbn [fst snd] in H
  end.
  set (s := normalize (series tables)) in *.
  set (i := normalize (industry tables)) in *.
  set (d := normalize (datatype tables)) in *.
  match goal with
  | H1 : find_col s ["series_id"] = OK ?sid,
    H2 : find_col s ["industry_code"; "industry"; "industry_cd"] = OK ?ic,
    H3 : find_col s ["data_type_code"; "data_type_code"; "datatype"; "datatype_cd"] = OK ?dc,
    H4 : find_col i ["industry_code"; "industry"; "industry_cd"] = OK ?icc,
    H5 : find_col d ["data_type_code"; "data_type"; "data_type_cd"] = OK ?dcc,
    H6 : find_col i ["industry_name"; "industry_text"; "industry_title"] = OK ?inm,
    H7 : find_col d ["data_type_text"; "data_type_name"; "data_type_title"] = OK ?dtx |- _ =>
      pose proof (find_col_In _ _ H1) as [I1 C1];
      pose proof (find_col_In _ _ H2) as [I2 C2];
      pose proof (find_col_In _ _ H3) as [I3 C3];
      pose proof (find_col_In _ _ H4) as [I4 C4];
      pose proof (find_col_In _ _ H5) as [I5 C5];
      pose proof (find_col_In _ _ H6) as [I6 C6];
      pose proof (find_col_In _ _ H7) as [I7 C7];
      unfold build_dictionary; fold s i d;
      rewrite H1, H2, H3, H4, H5, H6, H7; cbn [bind];
      split;
      [ intros Hseas;
        rewrite (@getitem_present s [sid; ic; dc; "seasonal"]);
        [ | intros c [<-|[<-|[<-|[<-|[]]]]]; assumption ];
        rewrite (@getitem_present i [icc; inm]);
        [ | intros c [<-|[<-|[]]]; assumption ];
        rewrite (@getitem_present d [dcc; dtx]);
        [ | intros c [<-|[<-|[]]]; assumption ];
        cbn [bind]; eexists; reflexivity
      | intros Hseas; unfold getitem at 1; cbn [filter];
        apply mem_In in C1, C2, C3; rewrite C1, C2, C3, (mem_false _ _ Hseas);
        reflexivity ]
  end.
Qed.

(** X7. [build_dictionary] returns a dictionary exactly when each of its
    seven column lookups finds a candidate and the series table has a
    column named seasonal, which is read by that name only; with the
    lookups found and that column absent it raises the KeyError of the
    column selection. *)
Theorem build_dictionary_succeeds_iff :
  forall tables : Tables,
    ((exists dict, build_dictionary tables = OK dict) <->
     Forall lookup_succeeds (lookups tables) /\
     In "seasonal" (columns (normalize (series tables)))) /\
    (Forall lookup_succeeds (lookups tables) ->
     ~ In "seasonal" (columns (normalize (series tables))) ->
     build_dictionary tables = Raise (NotInIndex ["seasonal"])).
Proof.
  intros tables. split.
  - split.
    + intros [dict Hd].
      destruct (all_succeed_or_one_fails (lookups tables)) as [Hall|Hex].
      * split; [assumption|].
        destruct (in_dec string_dec "seasonal" (columns (normalize (series tables))))
          as [Hin|Hn]; [assumption|].
        rewrite (proj2 (build_dictionary_after_lookups Hall) Hn) in Hd.
        discriminate.
      * destruct (build_dictionary_aborts Hex) as (l & _ & Hr). congruence.
    + intros [Hall Hseas]. now apply build_dictionary_after_lookups.
  - intros Hall. apply build_dictionary_after_lookups. exact Hall.
Qed.

End DictionaryFacts.

(** ** More on the weighted aggregator *)

Section MergeCount.

Variables L R O K : Type.
Variable keq : K -> K -> bool.
Variable kl : L -> K.
Variable kr : R -> K.
Variable join : L -> option R -> O.

(** A left merge holds each left row once per right row of its key, and
    once when no right row has the key. *)
Lemma merge_left_length (ls : list L) (rs : list R) :
  List.length (merge_left keq kl kr join ls rs)
  = list_sum (map (fun l => Nat.max 1 (List.length (filter (fun r => keq (kl l) (kr r)) rs)))
                  ls).
Proof.
  unfold merge_left.
  match goal with |- List.length (flat_map ?g _) = _ => set (f := g) end.
  induction ls as [|l ls IH]; [reflexivity|].
  cbn [flat_map map]. rewrite length_app, IH. unfold list_sum. cbn [fold_right]. f_equal.
  unfold f. destruct (filter (fun r => keq (kl l) (kr r)) rs) as [|x xs]; [reflexivity|].
  rewrite length_map. cbn [List.length]. lia.
Qed.

Lemma merge_left_no_drop (ls : list L) (rs : list R) :
  (List.length ls <= List.length (merge_left keq kl kr join ls rs))%nat.
Proof.
  rewrite merge_left_length. unfold list_sum.
  induction ls as [|l ls IH]; cbn [map fold_right List.length]; lia.
Qed.

End MergeCount.

Module AggregatorFacts.

Import PrepCES PrepFacts Aggregator.

Lemma filter_filter_implied {A : Type} (p q : A -> bool) (l : list A) :
  (forall x, p x = true -> q x = true) -> filter p (filter q l) = filter p l.
Proof.
  intros H. induction l as [|a l IH]; simpl; [reflexivity|].
  destruct (q a) eqn:Eq; simpl.
  - now rewrite IH.
  - destruct (p a) eqn:Ep; [|exact IH]. apply H in Ep. congruence.
Qed.

(** X8. [collapse_career] reads the rows of the two measures only: rows
    with any other datatype text, or with none, change neither the table it
    returns nor whether it raises. *)
Theorem collapse_career_ignores_other_measures :
  forall df : list Row,
    collapse_career df
    = collapse_career (filter (fun r => text_is EMP_TEXT r || text_is AHE_TEXT r) df).
Proof.
  intros df. unfold collapse_career.
  rewrite !filter_filter_implied; [reflexivity | |];
    intros x Hx; rewrite Hx; first [reflexivity | apply orb_true_r].
Qed.

Lemma pair_key_eq (a b : Timestamp * cell) :
  ts_eqb (fst a) (fst b) && cell_eqb (snd a) (snd b) = true <-> a = b.
Proof.
  destruct a as [d1 c1], b as [d2 c2]. cbn [fst snd].
  rewrite andb_true_iff, ts_eqb_eq, cell_eqb_eq. split.
  - intros [-> ->]. reflexivity.
  - intros H. now injection H.
Qed.

(** X9. An earnings row is weighted once per employment row of its date
    and industry code, and once, without weight, when there is none. When
    the employment rows hold no (date, industry code) pair twice, every
    earnings row is used exactly once, in table order, with the employment
    value of its pair as weight. *)
Theorem earnings_rows_weighted_per_employment_row :
  forall df : list Row,
    List.length (merged df)
    = list_sum
        (map (fun e =>
                Nat.max 1
                  (List.length
                     (filter (fun m => ts_eqb (date e) (date m)
                                       && cell_eqb (industry_code e) (industry_code m))
                             (emp_rows df))))
             (earn_rows df)) /\
    (NoDup (map (fun m => (date m, industry_code m)) (emp_rows df)) ->
     map e_row (merged df) = earn_rows df /\
     forall r, In r (merged df) ->
       (emp_weight_thousands r = NaN /\
        forall m, In m (emp_rows df) ->
                  (date m, industry_code m) <> (date (e_row r), industry_code (e_row r)))
       \/ exists m, In m (emp_rows df) /\
                    date m = date (e_row r) /\
                    industry_code m = industry_code (e_row r) /\
                    emp_weight_thousands r = value m).
Proof.
  intros df. split.
  - unfold merged, merge_weights. now rewrite merge_left_length.
  - intros Hnd. unfold merged, merge_weights.
    rewrite (@merge_left_unique _ _ _ _
               (fun a b => ts_eqb (fst a) (fst b) && cell_eqb (snd a) (snd b))
               _ (fun m => (date m, industry_code m)) _ pair_key_eq) by assumption.
    split.
    + rewrite map_map. cbn [e_row]. apply map_id.
    + intros r Hr. apply in_map_iff in Hr. destruct Hr as (e & <- & He). cbn [e_row emp_weight_thousands].
      destruct (find _ (emp_rows df)) as [m|] eqn:F.
      * right. apply find_some in F. destruct F as [Hin Hk].
        apply pair_key_eq in Hk. injection Hk as Hd Hc. exists m. now repeat split.
      * left. split; [reflexivity|]. intros m Hm Heq.
        pose proof (find_none _ _ F m Hm) as Hk. cbv beta in Hk.
        assert (Ht : ts_eqb (fst (date e, industry_code e)) (fst (date m, industry_code m))
                     && cell_eqb (snd (date e, industry_code e))
                                 (snd (date m, industry_code m)) = true)
          by (apply pair_key_eq; now symmetry).
        congruence.
Qed.

End AggregatorFacts.

(** ** More on matching and on the monthly filter *)

Module MatcherFacts.

Import PrepCES.

Lemma map_strip_fixed (l : list string) :
  (forall c, In c l -> strip c = c) -> map strip l = l.
Proof.
  intros H. rewrite <- (map_id l) at 2. apply map_ext_in. exact H.
Qed.

Lemma startswith_empty_value (c : string) :
  startswith EmptyString c = true <-> c = EmptyString.
Proof. destruct c; simpl; split; congruence. Qed.

(** X11. The predicate of the load script and the mask of the prep script
    agree on a value and codes without surrounding white space when the one
    code set is handed to the mask in both roles; they part on a missing
    value, which the load predicate matches when the empty string is among
    the codes and the mask never matches. *)
Theorem code_matches_agrees_with_naics_mask :
  forall codes : list string,
    (forall c, In c codes -> strip c = c) ->
    (forall s, strip s = s ->
       LoadCES.code_matches codes (Some s)
       = naics_mask1 (Some codes) (Some codes) (Some s)) /\
    (LoadCES.code_matches codes None = true <-> In EmptyString codes) /\
    naics_mask1 (Some codes) (Some codes) None = false.
Proof.
  intros codes Hc. split; [|split].
  - intros s Hs. rewrite Matcher.naics_mask1_unfold. cbn [codes_of].
    rewrite Hs, (map_strip_fixed codes Hc). reflexivity.
  - unfold LoadCES.code_matches. cbv zeta.
    rewrite orb_true_iff, existsb_eqb_In, existsb_exists. split.
    + intros [H|(c & Hin & Hp)]; [exact H|].
      apply startswith_empty_value in Hp. now subst.
    + intros H. now left.
  - now rewrite Matcher.naics_mask1_unfold.
Qed.

Lemma code_matches_agrees_with_naics_mask_witness :
  LoadCES.code_matches ["511210"; "5415"] (Some "541512")
  = naics_mask1 (Some ["511210"; "5415"]) (Some ["511210"; "5415"]) (Some "541512").
Proof.
  assert (Hc : forall c, In c ["511210"; "5415"] -> strip c = c)
    by (intros c [<-|[<-|[]]]; reflexivity).
  exact (proj1 (code_matches_agrees_with_naics_mask ["511210"; "5415"] Hc)
               "541512" eq_refl).
Defined.

End MatcherFacts.

Lemma match_monthly_of_code (s : string) :
  In s monthly_codes \/ In s (map (fun c => c ++ LF) monthly_codes) ->
  match_monthly s = true.
Proof.
  simpl. intros H.
  repeat match goal with
  | H : _ \/ _ |- _ => destruct H as [H|H]
  | H : False |- _ => destruct H
  end; subst; reflexivity.
Qed.

(** X12. The period pattern admits exactly the twelve monthly codes and
    the twelve codes followed by one line feed. *)
Theorem match_monthly_admits :
  forall s : string,
    match_monthly s = true <->
    In s monthly_codes \/ In s (map (fun c => c ++ LF) monthly_codes).
Proof.
  intros s. split; [apply match_monthly_cases | apply match_monthly_of_code].
Qed.

(** X13. In the prep script, where the period column is stripped first, a
    row is kept by the monthly filter exactly when its stripped period is
    one of the twelve codes, and it is kept with that code as its period. *)
Theorem monthly_only_keeps_the_twelve_codes :
  forall (data : list ObsRow) (o : ObsRow),
    In o (PrepCES.monthly_only data) <->
    exists o', In o' data /\ o = PrepCES.strip_keys o' /\
               exists c, In c monthly_codes /\ o_period o = Some c.
Proof.
  intros data o. unfold PrepCES.monthly_only. rewrite filter_In, in_map_iff. split.
  - intros [(o' & <- & Hin) Hm]. exists o'. repeat split; [assumption|].
    destruct (Extractor.monthly_only_periods data (PrepCES.strip_keys o')) as (c & Hc & Hp).
    + unfold PrepCES.monthly_only. apply filter_In. split; [now apply in_map | exact Hm].
    + now exists c.
  - intros (o' & Hin & -> & c & Hc & Hp). split; [now exists o'|].
    rewrite Hp. simpl. apply match_monthly_of_code. now left.
Qed.

(** ** The entry point of the prep script *)

Module PrepMainFacts.

Import PrepCES PrepFacts Aggregator PrepMain.

Lemma collapse_career_has_earnings (df : list Row) :
  has_earnings df -> exists ts, collapse_career df = OK ts.
Proof.
  intros H. apply has_earnings_rows in H. eexists. now apply collapse_career_rows.
Qed.

Lemma collapse_career_raises (df : list Row) :
  ~ has_earnings df ->
  collapse_career df
  = Raise (AttributeError "'DataFrame' object has no attribute 'to_frame'").
Proof.
  intros H. assert (E : earn_rows df = []).
  { destruct (earn_rows df) eqn:E; [reflexivity|].
    exfalso. apply H, has_earnings_rows. congruence. }
  unfold collapse_career. fold (earn_rows df). rewrite E. reflexivity.
Qed.

Lemma write_careers_acc (df : list CareerRow) (careers : list Career)
    (written : list (string * list OutRow)) :
  write_careers df careers written
  = ((written ++ fst (write_careers df careers []))%list,
     snd (write_careers df careers [])).
Proof.
  revert written. induction careers as [|c rest IH]; intros written; cbn [write_careers].
  - cbn. now rewrite app_nil_r.
  - destruct (career_df df c) as [|x xs]; [apply IH|].
    destruct (collapse_career _) as [ts|e].
    + cbn [app].
      rewrite (IH (written ++ [(out_name c, ts)])%list), (IH [(out_name c, ts)]).
      cbn [fst snd]. now rewrite <- app_assoc.
    + cbn. now rewrite app_nil_r.
Qed.

Lemma write_careers_pass (df : list CareerRow) (c : Career) (rest : list Career) :
  passes df c ->
  write_careers df (c :: rest) []
  = ((career_table df c ++ fst (write_careers df rest []))%list,
     snd (write_careers df rest [])).
Proof.
  intros H. cbn [write_careers]. unfold career_table.
  destruct (career_df df c) as [|x xs] eqn:E.
  - now destruct (write_careers df rest []).
  - unfold passes in H. rewrite E in H. destruct H as [H|H]; [discriminate|].
    destruct (collapse_career_has_earnings H) as [ts ->].
    apply write_careers_acc.
Qed.

Lemma write_careers_stop (df : list CareerRow) (c : Career) (rest : list Career) :
  stops df c ->
  write_careers df (c :: rest) []
  = ([], Some (AttributeError "'DataFrame' object has no attribute 'to_frame'")).
Proof.
  intros [Hne Hno]. cbn [write_careers].
  destruct (career_df df c) as [|x xs] eqn:E; [congruence|].
  now rewrite (collapse_career_raises Hno).
Qed.

Lemma passes_or_stops (df : list CareerRow) (c : Career) : passes df c \/ stops df c.
Proof.
  unfold passes, stops. destruct (career_df df c) as [|x xs] eqn:E; [now left; left|].
  destruct (earn_rows (map c_row (x :: xs))) eqn:Ee.
  - right. split; [discriminate|]. intros H. apply has_earnings_rows in H. contradiction.
  - left. right. apply has_earnings_rows. congruence.
Qed.

Lemma stops_not_passes (df : list CareerRow) (c : Career) : stops df c -> ~ passes df c.
Proof. intros [Hne Hno] [H|H]; contradiction. Qed.

(** X14. The loop over the careers skips a career no row matches and goes
    on: when each career matches no row or matches an earnings row, no
    exception ends the loop and the tables written are the tables of the
    careers with matched rows, in the order of the careers; and the loop
    ends without exception only then. [main] runs this loop over
    [CAREER_NAICS]. *)
Theorem write_careers_skips_unmatched_careers :
  forall (df : list CareerRow) (careers : list Career),
    (Forall (passes df) careers ->
     write_careers df careers [] = (flat_map (career_table df) careers, None)) /\
    (snd (write_careers df careers []) = None -> Forall (passes df) careers) /\
    (forall to_numeric tables,
        career_rows to_numeric tables = OK df ->
        main to_numeric tables = write_careers df CAREER_NAICS []).
Proof.
  intros df careers. split; [|split].
  - induction 1 as [|c rest Hc _ IH]; [reflexivity|].
    rewrite (write_careers_pass rest Hc), IH. reflexivity.
  - induction careers as [|c rest IH]; intros H; [constructor|].
    destruct (passes_or_stops df c) as [Hc|Hc].
    + rewrite (write_careers_pass rest Hc) in H. cbn [snd] in H.
      constructor; [assumption | now apply IH].
    + rewrite (write_careers_stop rest Hc) in H. discriminate.
  - intros to_numeric tables H. unfold main. now rewrite H.
Qed.

(** X15. The loop ends at the first career whose matched rows hold no
    earnings row: [collapse_career] raises there, the tables of the careers
    before it stay written, and no career after it is looked at. *)
Theorem write_careers_stops_without_earnings :
  forall (df : list CareerRow) (before : list Career) (c : Career) (after : list Career),
    Forall (passes df) before ->
    stops df c ->
    write_careers df (before ++ c :: after)%list []
    = (flat_map (career_table df) before,
       Some (AttributeError "'DataFrame' object has no attribute 'to_frame'")).
Proof.
  intros df before c after Hb Hc.
  induction Hb as [|b before Hb _ IH]; cbn [app].
  - now apply write_careers_stop.
  - rewrite (write_careers_pass _ Hb), IH. reflexivity.
Qed.



Lemma write_careers_In (df : list CareerRow) (careers : list Career)
    (name : string) (ts : list OutRow) :
  In (name, ts) (fst (write_careers df careers [])) ->
  exists c, In c careers /\ name = out_name c /\ career_df df c <> [] /\
            collapse_career (map c_row (career_df df c)) = OK ts.
Proof.
  induction careers as [|c rest IH]; [intros []|].
  destruct (passes_or_stops df c) as [Hc|Hc].
  - rewrite (write_careers_pass rest Hc). cbn [fst]. intros H.
    apply in_app_or in H. destruct H as [H|H].
    + unfold career_table in H. exists c.
      destruct (career_df df c) as [|x xs] eqn:E; [destruct H|].
      destruct (collapse_career (map c_row (x :: xs))) as [ts'|e] eqn:Ec; [|destruct H].
      destruct H as [H|[]]. injection H as <- <-.
      repeat split; [now left | discriminate].
    + destruct (IH H) as (c' & Hin & Hrest). exists c'. split; [now right | assumption].
  - rewrite (write_careers_stop rest Hc). intros [].
Qed.

(** X17. Every table the loop writes is the table [collapse_career] returns
    on the matched rows of one of the careers, under that career's file
    name, and its dates are strictly ascending and are the dates of the
    matched employment rows. *)
Theorem written_tables_are_career_collapses :
  forall (df : list CareerRow) (careers : list Career) (name : string) (ts : list OutRow),
    In (name, ts) (fst (write_careers df careers [])) ->
    exists c,
      In c careers /\ name = out_name c /\ career_df df c <> [] /\
      collapse_career (map c_row (career_df df c)) = OK ts /\
      StronglySorted (fun a b => ts_compare a b = Lt) (map o_date ts) /\
      (forall d, In d (map o_date ts) <->
                 exists r, In r (career_df df c) /\
                           datatype_text (c_row r) = Some EMP_TEXT /\
                           date (c_row r) = d).
Proof.
  intros df careers name ts H.
  destruct (write_careers_In df careers name ts H) as (c & Hin & Hn & Hne & Hc).
  exists c. repeat split; try assumption.
  - apply collapse_career_OK in Hc. destruct Hc as [_ ->].
    rewrite out_dates. apply emp_dates_sorted.
  - apply collapse_career_OK in Hc. destruct Hc as [_ ->].
    rewrite out_dates. intros Hd. apply emp_dates_In in Hd.
    destruct Hd as (r & Hr & Ht & Hdate). apply in_map_iff in Hr.
    destruct Hr as (cr & <- & Hcr). now exists cr.
  - apply collapse_career_OK in Hc. destruct Hc as [_ ->].
    rewrite out_dates. intros (cr & Hcr & Ht & Hdate). apply emp_dates_In.
    exists (c_row cr). repeat split; [now apply in_map | assumption | assumption].
Qed.

(** X18. Matched rows that hold earnings rows but no employment row give a
    table without rows: the earnings of a career are not reported unless
    employment is. *)
Theorem collapse_career_without_employment_is_empty :
  forall df : list Row,
    has_earnings df ->
    (forall r, In r df -> datatype_text r <> Some EMP_TEXT) ->
    collapse_career df = OK [].
Proof.
  intros df He Hno. apply has_earnings_rows in He.
  rewrite (@collapse_career_rows df He).
  assert (E : emp_rows df = []).
  { unfold emp_rows. destruct (filter (text_is EMP_TEXT) df) as [|r rs] eqn:E; [reflexivity|].
    exfalso. assert (Hr : In r (filter (text_is EMP_TEXT) df)) by (rewrite E; now left).
    apply filter_In in Hr. destruct Hr as [Hin Ht]. apply text_is_true in Ht.
    exact (Hno r Hin Ht). }
  unfold emp_dates. now rewrite E.
Qed.

End PrepMainFacts.

(** ** The dictionary of the prep script without unique keys *)

Module SeriesDictFacts.

Import PrepCES.

Lemma list_sum_flat_map {A B : Type} (f : A -> list B) (g : B -> nat) (l : list A) :
  list_sum (map g (flat_map f l)) = list_sum (map (fun a => list_sum (map g (f a))) l).
Proof.
  induction l as [|a l IH]; [reflexivity|].
  cbn [flat_map map]. rewrite map_app, list_sum_app, IH. reflexivity.
Qed.

Lemma list_sum_constant {B : Type} (g : B -> nat) (k : nat) (l : list B) :
  (forall b, In b l -> g b = k) -> list_sum (map g l) = (List.length l * k)%nat.
Proof.
  induction l as [|b l IH]; intros H; [reflexivity|].
  cbn [map List.length]. change (list_sum (g b :: map g l)) with (g b + list_sum (map g l))%nat.
  rewrite IH by (intros x Hx; apply H; now right).
  rewrite (H b (or_introl eq_refl)). lia.
Qed.

(** X19. The dictionary of the prep script holds a series once for each
    pair of an industry row and a datatype row with its codes, a side
    without such a row counting as one: reference tables with a code twice
    repeat the series, and no series is ever left out. *)
Theorem series_dict_row_count :
  forall (series : list SeriesRow) (industry : list IndustryRow)
         (datatype : list DatatypeRow),
    List.length (series_dict series industry datatype)
    = list_sum
        (map (fun r =>
                (Nat.max 1 (List.length
                              (filter (fun x => cell_eqb (sr_industry_code r)
                                                         (ir_industry_code x)) industry))
                 * Nat.max 1 (List.length
                                (filter (fun x => cell_eqb (sr_datatype_code r)
                                                           (dr_datatype_code x)) datatype)))%nat)
             series) /\
    (List.length series <= List.length (series_dict series industry datatype))%nat /\
    (forall r, In r series -> In r (map d_series (series_dict series industry datatype))).
Proof.
  intros series industry datatype.
  assert (Hcount :
    List.length (series_dict series industry datatype)
    = list_sum
        (map (fun r =>
                (Nat.max 1 (List.length
                              (filter (fun x => cell_eqb (sr_industry_code r)
                                                         (ir_industry_code x)) industry))
                 * Nat.max 1 (List.length
                                (filter (fun x => cell_eqb (sr_datatype_code r)
                                                           (dr_datatype_code x)) datatype)))%nat)
             series)).
  { unfold series_dict. rewrite merge_left_length. unfold merge_left at 1.
    rewrite list_sum_flat_map. f_equal. apply map_ext. intros r.
    rewrite (@list_sum_constant _ _
               (Nat.max 1 (List.length
                             (filter (fun x => cell_eqb (sr_datatype_code r)
                                                        (dr_datatype_code x)) datatype)))).
    - f_equal. destruct (filter _ industry) as [|x xs]; [reflexivity|].
      rewrite length_map. cbn [List.length]. lia.
    - intros b Hb. destruct (filter _ industry) as [|x xs].
      + destruct Hb as [<-|[]]. reflexivity.
      + apply in_map_iff in Hb. destruct Hb as (y & <- & _). reflexivity. }
  split; [exact Hcount|]. split.
  - unfold series_dict.
    etransitivity; [|apply merge_left_no_drop]. apply merge_left_no_drop.
  - intros r Hr. unfold series_dict.
    destruct (@merge_left_covers _ _ _ _ cell_eqb sr_industry_code ir_industry_code
                (fun l r => (l, match r with
                                | Some x => (ir_naics_code x, ir_industry_name x)
                                | None => (None, None)
                                end))
                series industry r Hr) as [ri Hri].
    match type of Hri with In ?row _ => set (row1 := row) in * end.
    destruct (@merge_left_covers _ _ _ _ cell_eqb
                (fun l : SeriesRow * (cell * cell) => sr_datatype_code (fst l))
                dr_datatype_code
                (fun l r => mkDictRow (fst l) (fst (snd l)) (snd (snd l))
                              (match r with Some x => dr_datatype_text x | None => None end))
                _ datatype row1 Hri) as [rd Hrd].
    apply in_map_iff. eexists. split; [|exact Hrd]. reflexivity.
Qed.

End SeriesDictFacts.

(** ** White space around codes *)

Lemma rstrip_idempotent (s : string) : rstrip (rstrip s) = rstrip s.
Proof.
  induction s as [|c s IH]; [reflexivity|].
  cbn [rstrip]. destruct (rstrip s) as [|d r] eqn:E.
  - destruct (isspace c) eqn:Ec; [reflexivity|]. cbn [rstrip]. now rewrite Ec.
  - cbn [rstrip]. cbn [rstrip] in IH. now rewrite IH.
Qed.

Lemma lstrip_starts_clean (s : string) : starts_clean (lstrip s).
Proof.
  induction s as [|c s IH]; [exact I|]. cbn [lstrip].
  destruct (isspace c) eqn:E; [exact IH | exact E].
Qed.

Lemma lstrip_clean (s : string) : starts_clean s -> lstrip s = s.
Proof. destruct s as [|c s]; [reflexivity|]. simpl. now intros ->. Qed.

Lemma rstrip_starts_clean (s : string) : starts_clean s -> starts_clean (rstrip s).
Proof.
  destruct s as [|c s]; [trivial|]. cbn [rstrip starts_clean]. intros Hc.
  destruct (rstrip s); [now rewrite Hc | exact Hc].
Qed.

Lemma strip_idempotent (s : string) : strip (strip s) = strip s.
Proof.
  unfold strip.
  rewrite (lstrip_clean (rstrip (lstrip s))).
  - apply rstrip_idempotent.
  - apply rstrip_starts_clean, lstrip_starts_clean.
Qed.

(** X20. The mask of [naics_mask] does not depend on white space around the
    value or around the codes: stripping either beforehand, as [main] does
    for the value column, changes no entry of the mask. *)
Theorem naics_mask_insensitive_to_padding :
  forall (naics : list cell) (exact prefixes : option (list string)),
    PrepCES.naics_mask (map PrepMain.strip_cell naics) exact prefixes
    = PrepCES.naics_mask naics exact prefixes /\
    PrepCES.naics_mask naics (option_map (map strip) exact) (option_map (map strip) prefixes)
    = PrepCES.naics_mask naics exact prefixes.
Proof.
  intros naics exact prefixes. unfold PrepCES.naics_mask. split.
  - rewrite map_map. apply map_ext. intros v.
    rewrite !Matcher.naics_mask1_unfold.
    destruct v as [s|]; [|reflexivity]. cbn [PrepMain.strip_cell option_map].
    now rewrite strip_idempotent.
  - apply map_ext. intros v. rewrite !Matcher.naics_mask1_unfold.
    assert (Hc : forall o, map strip (PrepCES.codes_of (option_map (map strip) o))
                           = map strip (PrepCES.codes_of o)).
    { intros [l|]; [|reflexivity]. cbn [option_map PrepCES.codes_of].
      rewrite map_map. apply map_ext. intros c. apply strip_idempotent. }
    now rewrite !Hc.
Qed.

(** ** The downloads *)

Module DownloadFacts.

Import Download.

Section Net.

Variable get : string -> response.

Lemma download_file_cases (name dest : string) (w w' : World) (r : option download_exn) :
  download_file get name dest w = (w', r) ->
  (cached w dest = true /\ w' = w /\ r = None) \/
  (cached w dest = false /\
   requests w' = (requests w ++ [(BASE_URL ++ name)%string])%list /\
   ((files w' = files w /\ r <> None) \/
    (exists status content,
        get (BASE_URL ++ name) = Response status content /\
        files w' = (dest, content) :: files w /\ r = None))).
Proof.
  unfold download_file. destruct (cached w dest) eqn:Ec.
  - intros H. injection H as <- <-. now left.
  - right. split; [reflexivity|].
    destruct (get (BASE_URL ++ name)) as [status content|] eqn:Eg.
    + destruct ((400 <=? status) && (status <? 600)) eqn:Es;
        injection H as <- <-; cbn [files requests]; split; try reflexivity.
      * left. split; [reflexivity | discriminate].
      * right. now exists status, content.
    + injection H as <- <-. cbn. split; [reflexivity|]. left. split; [reflexivity | discriminate].
Qed.

Lemma read_other (fs : list (string * string)) (dest content p : string) :
  p <> dest -> read ((dest, content) :: fs) p = read fs p.
Proof. intros H. cbn [read]. apply String.eqb_neq in H. now rewrite H. Qed.

Lemma read_same (fs : list (string * string)) (dest content : string) :
  read ((dest, content) :: fs) dest = Some content.
Proof. cbn [read]. now rewrite String.eqb_refl. Qed.

(** X21. A call of [download_file] that returns leaves the file in place
    and every other file as it was. It sends no request and changes nothing
    when the file was there with content; otherwise it sends one request
    and the file holds the body of the response. When the file it leaves is
    not empty a second call sends no request and changes nothing; when the
    file it leaves is empty a second call sends the request again. *)
Theorem download_file_caches :
  forall (name dest : string) (w w' : World),
    download_file get name dest w = (w', None) ->
    (forall p, p <> dest -> read (files w') p = read (files w) p) /\
    (cached w dest = true -> w' = w) /\
    (cached w dest = false ->
     requests w' = (requests w ++ [(BASE_URL ++ name)%string])%list /\
     exists status content,
       get (BASE_URL ++ name) = Response status content /\
       read (files w') dest = Some content) /\
    exists c,
      read (files w') dest = Some c /\
      (c <> EmptyString -> download_file get name dest w' = (w', None)) /\
      (c = EmptyString ->
       requests (fst (download_file get name dest w'))
       = (requests w' ++ [(BASE_URL ++ name)%string])%list).
Proof.
  intros name dest w w' H.
  destruct (download_file_cases name dest w H)
    as [(Hc & -> & _)|(Hc & Hreq & [(Hf & Hr)|(st & ct & Hg & Hf & _)])].
  - split; [reflexivity|]. split; [reflexivity|]. split; [congruence|].
    pose proof Hc as Hc'. unfold cached in Hc'.
    destruct (read (files w) dest) as [c|] eqn:Er; [|discriminate].
    exists c. split; [reflexivity|]. split.
    + intros _. unfold download_file. now rewrite Hc.
    + intros ->. discriminate.
  - congruence.
  - split; [intros p Hp; rewrite Hf; now apply read_other|].
    split; [congruence|]. split.
    + intros _. split; [assumption|]. exists st, ct.
      split; [assumption|]. rewrite Hf. apply read_same.
    + exists ct. rewrite Hf, read_same. split; [reflexivity|].
      assert (Ec : cached w' dest = negb (String.eqb ct EmptyString)).
      { unfold cached. rewrite Hf, read_same. now destruct ct. }
      split.
      * intros Hne. unfold download_file. rewrite Ec.
        apply String.eqb_neq in Hne. now rewrite Hne.
      * intros ->. unfold download_file. rewrite Ec. cbn [String.eqb negb].
        destruct (get (BASE_URL ++ name)) as [st' ct'|]; [|reflexivity].
        now destruct ((400 <=? st') && (st' <? 600)).
Qed.

Lemma download_file_keeps (name dest : string) (w w' : World) (r : option download_exn)
    (p : string) :
  download_file get name dest w = (w', r) ->
  (exists c, read (files w) p = Some c) -> exists c, read (files w') p = Some c.
Proof.
  intros H [c Hc].
  destruct (download_file_cases name dest w H)
    as [(_ & -> & _)|(_ & _ & [(Hf & _)|(st & ct & _ & Hf & _)])].
  - now exists c.
  - exists c. now rewrite Hf.
  - rewrite Hf. destruct (String.eqb_spec p dest) as [->|Hne].
    + exists ct. apply read_same.
    + exists c. now rewrite read_other.
Qed.

(** X22. When the loop over [FILES] ends without exception, every listed
    file is on disk and every path that is not listed reads as before; when
    every listed file was there with content, the loop sends no request and
    changes nothing. *)
Theorem download_all_leaves_files :
  forall (fs : list (string * string)) (w : World),
    (forall w', download_all get fs w = (w', None) ->
       (forall kf, In kf fs -> exists c, read (files w') (RAW_DIR ++ snd kf) = Some c) /\
       (forall p, (forall kf, In kf fs -> p <> RAW_DIR ++ snd kf) ->
                  read (files w') p = read (files w) p)) /\
    (Forall (fun kf => cached w (RAW_DIR ++ snd kf) = true) fs ->
     download_all get fs w = (w, None)).
Proof.
  intros fs. induction fs as [|[k f] fs IH]; intros w; split.
  - intros w' H. injection H as <-. split; [intros kf [] | reflexivity].
  - reflexivity.
  - intros w' H. cbn [download_all] in H.
    destruct (download_file get f (RAW_DIR ++ f) w) as [w1 [e|]] eqn:Ed; [discriminate|].
    destruct (proj1 (IH w1) w' H) as [Hex Hun].
    assert (Hoth : forall p, p <> RAW_DIR ++ f -> read (files w1) p = read (files w) p).
    { intros p Hp.
      destruct (download_file_cases f (RAW_DIR ++ f) w Ed)
        as [(_ & -> & _)|(_ & _ & [(Hf & _)|(st & ct & _ & Hf & _)])];
        [reflexivity | now rewrite Hf | rewrite Hf; now apply read_other]. }
    assert (Hok : exists c, read (files w1) (RAW_DIR ++ f) = Some c).
    { destruct (download_file_cases f (RAW_DIR ++ f) w Ed)
        as [(Hc & -> & _)|(_ & _ & [(_ & Hr)|(st & ct & _ & Hf & _)])].
      - unfold cached in Hc. destruct (read (files w) (RAW_DIR ++ f)) as [c|];
          [now exists c | discriminate].
      - congruence.
      - exists ct. rewrite Hf. apply read_same. }
    split.
    + intros kf [<-|Hin]; [|now apply Hex]. cbn [snd].
      destruct Hok as (c & Hc).
      assert (Hkeep : forall fs' w1 w',
                 download_all get fs' w1 = (w', None) ->
                 (exists c, read (files w1) (RAW_DIR ++ f) = Some c) ->
                 exists c, read (files w') (RAW_DIR ++ f) = Some c).
      { clear. induction fs' as [|[k' f'] fs' IH']; intros w1 w' H Hc.
        - now injection H as <-.
        - cbn [download_all] in H.
          destruct (download_file get f' (RAW_DIR ++ f') w1) as [w2 [e|]] eqn:Ed;
            [discriminate|].
          apply (IH' w2 w' H). exact (download_file_keeps f' (RAW_DIR ++ f') w1 _ Ed Hc). }
      apply (Hkeep fs w1 w' H). now exists c.
    + intros p Hp. rewrite Hun by (intros kf Hin; apply Hp; now right).
      apply Hoth. exact (Hp (k, f) (or_introl eq_refl)).
  - intros Hall. inversion Hall as [|? ? Hc Hrest]; subst. cbn [snd] in Hc.
    cbn [download_all]. unfold download_file. rewrite Hc.
    now apply IH.
Qed.

End Net.

End DownloadFacts.

(** ** The further properties at concrete inputs *)

Lemma extract_proxy_dataset_row_bound_witness :
  exists out,
    LoadCES.extract_proxy_dataset int_numeric newline_period_tables example_dict
      (LoadCES.code_matches LoadCES.mechanic_codes) LoadCES.measures None = OK out /\
    (List.length out <= 1)%nat.
Proof.
  assert (Hnd : NoDup (map LoadCES.series_id example_dict)).
  { vm_compute. repeat constructor. intros []. }
  exact (@ExtractionFacts.extract_proxy_dataset_row_bound int_numeric newline_period_tables
           example_dict (LoadCES.code_matches LoadCES.mechanic_codes) LoadCES.measures
           None Hnd).
Defined.

Lemma extracted_dates_first_of_month_witness :
  exists out,
    LoadCES.extract_proxy_dataset int_numeric newline_period_tables example_dict
      (LoadCES.code_matches LoadCES.mechanic_codes) LoadCES.measures None = OK out /\
    forall row, In row out -> LoadCES.j_year (LoadCES.obs row) = Some "2020" ->
      exists m, 1 <= m <= 12 /\ LoadCES.date row = Some (mkTimestamp 2020 m 1).
Proof.
  destruct (ExtractionFacts.extracted_dates_first_of_month int_numeric
              newline_period_tables example_dict
              (LoadCES.code_matches LoadCES.mechanic_codes) LoadCES.measures None)
    as (out & Hout & H).
  exists out. split; [exact Hout|]. intros row Hin Hy.
  destruct (H row 2020 Hin ltac:(lia) Hy) as (m & Hm & Hd & _).
  exists m. now split.
Defined.

Lemma main_returns_tables_once_dictionary_built_witness :
  exists mechanic_df graphic_df software_df,
    LoadCES.main int_numeric newline_period_tables
    = OK (mechanic_df, graphic_df, software_df).
Proof.
  assert (Hd : exists d, LoadCES.build_dictionary newline_period_tables = OK d)
    by (eexists; vm_compute; reflexivity).
  destruct Hd as [d Hd].
  assert (Hm : exists o, In o (LoadCES.data newline_period_tables) /\
                         period_is_monthly (o_period o) = true).
  { eexists. split; [left; reflexivity | reflexivity]. }
  do 3 eexists.
  exact (@ExtractionFacts.main_returns_tables_once_dictionary_built int_numeric
           newline_period_tables d Hd Hm).
Defined.

Lemma build_dictionary_succeeds_iff_witness :
  exists dict, LoadCES.build_dictionary newline_period_tables = OK dict.
Proof.
  apply (proj1 (DictionaryFacts.build_dictionary_succeeds_iff newline_period_tables)).
  split.
  - repeat constructor; eexists; vm_compute; reflexivity.
  - vm_compute. tauto.
Defined.

Lemma earnings_rows_weighted_per_employment_row_witness :
  map PrepCES.e_row (PrepCES.merged two_industries) = PrepCES.earn_rows two_industries.
Proof.
  apply (proj2 (AggregatorFacts.earnings_rows_weighted_per_employment_row two_industries)).
  vm_compute. repeat constructor; simpl; intros H; [|exact H].
  destruct H as [H|[]]. discriminate H.
Defined.

Lemma write_careers_skips_unmatched_careers_witness :
  exists df,
    PrepMain.career_rows int_numeric prep_example_mechanic = OK df /\
    PrepMain.main int_numeric prep_example_mechanic
    = (flat_map (PrepMain.career_table df) PrepMain.CAREER_NAICS, None).
Proof.
  eexists. split; [vm_compute; reflexivity|].
  match goal with |- context [PrepMain.career_table ?d] => set (df := d) end.
  destruct (PrepMainFacts.write_careers_skips_unmatched_careers df PrepMain.CAREER_NAICS)
    as (Hall & _ & Hmain).
  rewrite (Hmain int_numeric prep_example_mechanic) by (vm_compute; reflexivity).
  apply Hall.
  apply Forall_cons; [|apply Forall_cons; [|apply Forall_cons; [|apply Forall_nil]]].
  - right. exists (earn_row jan20 "80811100" (Fin 25)).
    split; [vm_compute; tauto | reflexivity].
  - left. reflexivity.
  - left. reflexivity.
Defined.

Lemma write_careers_stops_without_earnings_witness :
  exists df,
    PrepMain.career_rows int_numeric prep_example_software = OK df /\
    PrepMain.write_careers df PrepMain.CAREER_NAICS []
    = (flat_map (PrepMain.career_table df)
         [ PrepMain.mkCareer "mechanic" None (Some ["8111"]);
           PrepMain.mkCareer "graphic_designer" (Some ["54143"]) None ],
       Some (AttributeError "'DataFrame' object has no attribute 'to_frame'")).
Proof.
  eexists. split; [vm_compute; reflexivity|].
  match goal with |- context [PrepMain.career_table ?d] => set (df := d) end.
  apply (@PrepMainFacts.write_careers_stops_without_earnings df
           [ PrepMain.mkCareer "mechanic" None (Some ["8111"]);
             PrepMain.mkCareer "graphic_designer" (Some ["54143"]) None ]
           (PrepMain.mkCareer "software_developer" (Some ["511210"]) (Some ["5415"])) []).
  - apply Forall_cons; [|apply Forall_cons; [|apply Forall_nil]].
    + right. exists (earn_row jan20 "80811100" (Fin 25)).
      split; [vm_compute; tauto | reflexivity].
    + left. reflexivity.
  - split.
    + vm_compute. discriminate.
    + intros (r & Hr & Ht). vm_compute in Hr. destruct Hr as [<-|[]]. discriminate Ht.
Defined.


Lemma written_tables_are_career_collapses_witness :
  exists df ts,
    PrepMain.career_rows int_numeric prep_example_mechanic = OK df /\
    In ("mechanic_monthly_ces.csv", ts)
       (fst (PrepMain.write_careers df PrepMain.CAREER_NAICS [])) /\
    StronglySorted (fun a b => ts_compare a b = Lt) (map PrepCES.o_date ts).
Proof.
  eexists. eexists. split; [vm_compute; reflexivity|].
  match goal with |- In ?x (fst (PrepMain.write_careers ?d _ _)) /\ _ =>
    assert (Hin : In x (fst (PrepMain.write_careers d PrepMain.CAREER_NAICS [])))
  end.
  { vm_compute. left. reflexivity. }
  split; [exact Hin|].
  destruct (@PrepMainFacts.written_tables_are_career_collapses _ _ _ _ Hin)
    as (c & _ & _ & _ & _ & Hs & _).
  exact Hs.
Defined.

Lemma collapse_career_without_employment_is_empty_witness :
  PrepCES.collapse_career earnings_alone = OK [].
Proof.
  apply PrepMainFacts.collapse_career_without_employment_is_empty.
  - exists (earn_row jan20 "811100" (Fin 10)). split; [left; reflexivity | reflexivity].
  - intros r [<-|[]]. discriminate.
Defined.

Lemma download_file_caches_witness :
  exists w,
    Download.download_file steady_server "ce.series" "raw/ce.series" empty_world
    = (w, None) /\
    Download.download_file steady_server "ce.series" "raw/ce.series" w = (w, None).
Proof.
  eexists. split; [vm_compute; reflexivity|].
  match goal with |- Download.download_file _ _ _ ?w1 = _ => set (w := w1) end.
  assert (H : Download.download_file steady_server "ce.series" "raw/ce.series" empty_world
              = (w, None)) by (vm_compute; reflexivity).
  destruct (@DownloadFacts.download_file_caches steady_server "ce.series" "raw/ce.series"
              empty_world _ H) as (_ & _ & _ & c & Hc & Hagain & _).
  apply Hagain. vm_compute in Hc. injection Hc as <-. discriminate.
Defined.

Lemma download_all_leaves_files_witness :
  exists w,
    Download.download_all steady_server Download.FILES empty_world = (w, None) /\
    exists c, Download.read (Download.files w) "raw/ce.industry" = Some c.
Proof.
  eexists. split; [vm_compute; reflexivity|].
  match goal with |- exists c, Download.read (Download.files ?w1) _ = _ => set (w := w1) end.
  assert (H : Download.download_all steady_server Download.FILES empty_world = (w, None))
    by (vm_compute; reflexivity).
  destruct (proj1 (DownloadFacts.download_all_leaves_files steady_server Download.FILES
                     empty_world) w H) as [Hex _].
  exact (Hex ("industry", "ce.industry") ltac:(vm_compute; tauto)).
Defined.

Lemma monthly_code_first_of_month_witness :
  LoadCES.make_monthly_date [Some "2024"] [Some "M07"] = OK [Some (mkTimestamp 2024 7 1)] /\
  PrepCES.make_date [2024] [Some "M07"] = OK [mkTimestamp 2024 7 1].
Proof.
  exact (@monthly_code_first_of_month 2024 7 ltac:(lia) ltac:(lia)).
Defined.
